(** * monarch-stems: the validation, parsing and error-mapping layer of
      [src/index.ts], embedded in Rocq.

    The client wraps one remote HTTP API.  What can be verified about it is
    the part that runs before and after the network call: input validation
    ([assertValidFileInput], [normalizeBaseUrl], [assertValidJobId],
    [sanitizeFilename]), the response parser ([parseSeparateResponse]), the
    axios error mapper ([throwAxiosError]) and the way the three public
    operations compose them around a single transport request.

    Conventions of the embedding:
    - a JavaScript string is the list of its UTF-16 code units ([jsstring]);
    - a JavaScript number is an IEEE 754 binary64 value (primitive [float]);
    - a JSON-like value is the inductive [value]; objects are finite maps;
    - [throw] is the [Err] branch of [result]; an [async] function is a tree
      of type [io] whose inner nodes are the transport requests it awaits;
    - a platform function that can throw returns an [option] ([None] is its
      exception) or a [result]; what depends on the runtime is a field of
      the class [Host]. *)

From Stdlib Require Import NArith ZArith String Ascii.
From Stdlib Require Import Floats.PrimFloat Floats.SpecFloat Floats.FloatOps.
From stdpp Require Import gmap list.

Local Open Scope N_scope.

(* ===================================================================== *)
(** ** JavaScript strings                                                  *)
(* ===================================================================== *)

Module JS.

(** A string is a sequence of 16-bit code units. *)
Definition codeunit := N.
Definition jsstring := list codeunit.

(** An ASCII literal as a JavaScript string. *)
Definition js (s : string) : jsstring :=
  map N_of_ascii (list_ascii_of_string s).
Arguments js : simpl never.

(** [s.length === 0] *)
Definition isEmpty (s : jsstring) : bool :=
  match s with [] => true | _ :: _ => false end.

(** WhiteSpace and LineTerminator code points of ECMAScript: the characters
    removed by [String.prototype.trim]. *)
Definition isWhiteSpace (c : codeunit) : bool :=
  (c =? 0x09) || (c =? 0x0A) || (c =? 0x0B) || (c =? 0x0C) || (c =? 0x0D)
  || (c =? 0x20) || (c =? 0xA0) || (c =? 0x1680)
  || ((0x2000 <=? c) && (c <=? 0x200A))
  || (c =? 0x2028) || (c =? 0x2029) || (c =? 0x202F) || (c =? 0x205F)
  || (c =? 0x3000) || (c =? 0xFEFF).

(** LineTerminator: the characters that [.] does not match in a regular
    expression without the [s] flag. *)
Definition isLineTerminator (c : codeunit) : bool :=
  (c =? 0x0A) || (c =? 0x0D) || (c =? 0x2028) || (c =? 0x2029).

Definition SLASH : codeunit := 0x2F.
Definition BACKSLASH : codeunit := 0x5C.
Definition DOT : codeunit := 0x2E.

Definition isSlash (c : codeunit) : bool := c =? SLASH.

(** The character class [[/\\]]. *)
Definition isSeparator (c : codeunit) : bool := (c =? SLASH) || (c =? BACKSLASH).

Fixpoint dropWhile (p : codeunit -> bool) (s : jsstring) : jsstring :=
  match s with
  | [] => []
  | c :: s' => if p c then dropWhile p s' else s
  end.

Fixpoint takeWhile (p : codeunit -> bool) (s : jsstring) : jsstring :=
  match s with
  | [] => []
  | c :: s' => if p c then c :: takeWhile p s' else []
  end.

(** Removes the longest suffix all of whose code units satisfy [p]. *)
Fixpoint dropWhileEnd (p : codeunit -> bool) (s : jsstring) : jsstring :=
  match s with
  | [] => []
  | c :: s' =>
      let r := dropWhileEnd p s' in
      if p c && isEmpty r then [] else c :: r
  end.

(** [String.prototype.trim] *)
Definition trim (s : jsstring) : jsstring :=
  dropWhileEnd isWhiteSpace (dropWhile isWhiteSpace s).

Fixpoint startsWith (p s : jsstring) : bool :=
  match p, s with
  | [], _ => true
  | _ :: _, [] => false
  | a :: p', b :: s' => (a =? b) && startsWith p' s'
  end.

(** [s.includes(sub)] *)
Fixpoint includes (sub s : jsstring) : bool :=
  startsWith sub s
  || match s with [] => false | _ :: s' => includes sub s' end.

(** Index of the last code unit satisfying [p]. *)
Fixpoint lastIndexWhere (p : codeunit -> bool) (s : jsstring) : option nat :=
  match s with
  | [] => None
  | c :: s' =>
      match lastIndexWhere p s' with
      | Some i => Some (S i)
      | None => if p c then Some 0%nat else None
      end
  end.

(** [s.replace(/\/+$/, '')]: the first (leftmost) match of [\/+$] is the
    maximal run of slashes that reaches the end of the input. *)
Definition replaceTrailingSlashes (s : jsstring) : jsstring :=
  dropWhileEnd isSlash s.

(** [s.replace(/^.*[/\\]/, '')].  Without the [m] flag [^] only matches at
    index 0, and without the [s] flag [.*] stops at the first line
    terminator; being greedy, [.*] backtracks to the last separator of that
    first line.  With no separator there, nothing is replaced. *)
Definition replaceDirPrefix (s : jsstring) : jsstring :=
  let line := takeWhile (fun c => negb (isLineTerminator c)) s in
  match lastIndexWhere isSeparator line with
  | Some i => drop (S i) s
  | None => s
  end.

(** [/\.\.|\/|\\/.test(s)] *)
Definition testPathSegment (s : jsstring) : bool :=
  includes [DOT; DOT] s || existsb isSeparator s.

End JS.
Export JS.

(* ===================================================================== *)
(** ** [encodeURIComponent]                                                *)
(* ===================================================================== *)

Module URI.

(** uriUnescaped: letters, digits and the marks [-_.!~*'()]. *)
Definition isUnreserved (c : codeunit) : bool :=
  ((0x41 <=? c) && (c <=? 0x5A)) || ((0x61 <=? c) && (c <=? 0x7A))
  || ((0x30 <=? c) && (c <=? 0x39))
  || (c =? 0x2D) || (c =? 0x5F) || (c =? 0x2E) || (c =? 0x21) || (c =? 0x7E)
  || (c =? 0x2A) || (c =? 0x27) || (c =? 0x28) || (c =? 0x29).

Definition isLeadSurrogate (c : codeunit) : bool := (0xD800 <=? c) && (c <=? 0xDBFF).
Definition isTrailSurrogate (c : codeunit) : bool := (0xDC00 <=? c) && (c <=? 0xDFFF).

(** The code point of a surrogate pair. *)
Definition pairCodePoint (lead trail : codeunit) : N :=
  (lead - 0xD800) * 0x400 + (trail - 0xDC00) + 0x10000.

(** The UTF-8 octets of a code point. *)
Definition utf8 (cp : N) : list N :=
  if cp <? 0x80 then [cp]
  else if cp <? 0x800 then
    [N.lor 0xC0 (N.shiftr cp 6); N.lor 0x80 (N.land cp 0x3F)]
  else if cp <? 0x10000 then
    [N.lor 0xE0 (N.shiftr cp 12);
     N.lor 0x80 (N.land (N.shiftr cp 6) 0x3F);
     N.lor 0x80 (N.land cp 0x3F)]
  else
    [N.lor 0xF0 (N.shiftr cp 18);
     N.lor 0x80 (N.land (N.shiftr cp 12) 0x3F);
     N.lor 0x80 (N.land (N.shiftr cp 6) 0x3F);
     N.lor 0x80 (N.land cp 0x3F)].

Definition hexDigit (d : N) : codeunit :=
  if d <? 10 then 0x30 + d else 0x41 + (d - 10).

(** ["%XX"] with upper-case hexadecimal digits. *)
Definition percentOctet (o : N) : jsstring :=
  [0x25; hexDigit (N.shiftr o 4); hexDigit (N.land o 0xF)].

Definition percentOctets (os : list N) : jsstring :=
  concat (map percentOctet os).

(** [encodeURIComponent(s)]; [None] is the [URIError] raised on an unpaired
    surrogate. *)
Fixpoint encodeURIComponent (s : jsstring) : option jsstring :=
  match s with
  | [] => Some []
  | c :: rest =>
      if isUnreserved c then
        match encodeURIComponent rest with
        | Some r => Some (c :: r)
        | None => None
        end
      else if isTrailSurrogate c then None
      else if isLeadSurrogate c then
        match rest with
        | d :: rest' =>
            if isTrailSurrogate d then
              match encodeURIComponent rest' with
              | Some r => Some (percentOctets (utf8 (pairCodePoint c d)) ++ r)
              | None => None
              end
            else None
        | [] => None
        end
      else
        match encodeURIComponent rest with
        | Some r => Some (percentOctets (utf8 c) ++ r)
        | None => None
        end
  end.

End URI.
Export URI.

(* ===================================================================== *)
(** ** JavaScript values                                                   *)
(* ===================================================================== *)

(** The values a response body or an error payload can hold: what
    [JSON.parse] produces, and [undefined]. *)
#[warnings="-register-all"]
Inductive value : Type :=
| VUndefined
| VNull
| VBool (b : bool)
| VNum (x : float)
| VStr (s : jsstring)
| VArr (xs : list value)
| VObj (m : gmap (list N) value).

(** [v != null && typeof v === 'object'] *)
Definition isObject (v : value) : bool :=
  match v with
  | VArr _ | VObj _ => true
  | _ => false
  end.

(** [Array.isArray(v)] *)
Definition isArray (v : value) : bool :=
  match v with VArr _ => true | _ => false end.

(** [v.key] for a named property [key] of an object-typed [v].  The keys
    read by this program are never array indices nor ["length"], so an array
    has none of them. *)
Definition getProp (key : jsstring) (v : value) : value :=
  match v with
  | VObj m => default VUndefined (m !! key)
  | _ => VUndefined
  end.

(** [key in v] for an object-typed [v]. *)
Definition hasProp (key : jsstring) (v : value) : bool :=
  match v with
  | VObj m => bool_decide (is_Some (m !! key))
  | _ => false
  end.

(** An object literal. *)
Definition obj (fields : list (jsstring * value)) : value :=
  VObj (list_to_map fields).

(* ===================================================================== *)
(** ** [Number::toString]                                                  *)
(* ===================================================================== *)

(** The conversion used by [String(x)] and by template literals: the
    shortest decimal digits that read back as the same binary64 value, laid
    out as ECMAScript prescribes. *)
Module NumberConversion.
Local Open Scope bool_scope.
Local Open Scope Z_scope.

(** A non-negative rational [num / den], [den > 0]. *)
Definition ratio := (Z * Z)%type.

Definition ratio_compare (a b : ratio) : comparison :=
  (a.1 * b.2 ?= b.1 * a.2).

(** [v * 2^e] *)
Definition scale2 (v e : Z) : ratio :=
  if 0 <=? e then (v * 2 ^ e, 1) else (v, 2 ^ (- e)).

(** [s * 10^q] *)
Definition scale10 (s q : Z) : ratio :=
  if 0 <=? q then (s * 10 ^ q, 1) else (s, 10 ^ (- q)).

(** The least [n], from [n] on, with [x < 10^n]. *)
Fixpoint decimalExponent (fuel : nat) (x : ratio) (n : Z) : Z :=
  match fuel with
  | O => n
  | S fuel' =>
      match ratio_compare x (scale10 1 n) with
      | Lt => n
      | _ => decimalExponent fuel' x (n + 1)
      end
  end.

(** The decimal digits of a non-negative integer, most significant first. *)
Fixpoint digitsOf (fuel : nat) (n : Z) (acc : jsstring) : jsstring :=
  match fuel with
  | O => acc
  | S fuel' =>
      let acc' := (Z.to_N (n mod 10) + 0x30)%N :: acc in
      if n <? 10 then acc' else digitsOf fuel' (n / 10) acc'
  end.

Definition decimal (n : Z) : jsstring :=
  digitsOf (S (Z.to_nat (Z.log2 n))) n [].

(** The digits [s], [k] of them with [k] least, and the exponent [n] such
    that [s * 10^(n-k)] lies in the rounding interval of [x], from [low] to
    [high] and closed when [closed]; the value nearest to [x] is taken, the
    even one on a tie. *)
Fixpoint shortest (fuel : nat) (x low high : ratio) (closed : bool) (n k : Z)
  : Z * Z * Z :=
  let q := n - k in
  let sLo := (x.1 * (scale10 1 q).2) / (x.2 * (scale10 1 q).1) in
  let sHi := sLo + 1 in
  let inside (s : Z) : bool :=
    let v := scale10 s q in
    match ratio_compare low v, ratio_compare v high with
    | Lt, Lt => true
    | Eq, Lt | Lt, Eq | Eq, Eq => closed
    | _, _ => false
    end in
  let normal (s : Z) : Z * Z * Z :=
    if s =? 10 ^ k then (10 ^ (k - 1), n + 1, k) else (s, n, k) in
  match fuel with
  | O => normal sLo
  | S fuel' =>
      match inside sLo, inside sHi with
      | true, false => normal sLo
      | false, true => normal sHi
      | true, true =>
          match ratio_compare (2 * x.1, x.2) (scale10 (sLo + sHi) q) with
          | Lt => normal sLo
          | Gt => normal sHi
          | Eq => if Z.even sLo then normal sLo else normal sHi
          end
      | false, false => shortest fuel' x low high closed n (k + 1)
      end
  end.

Definition zeros (n : Z) : jsstring := replicate (Z.to_nat n) 0x30%N.

(** The layout of the digits [s] ([k] of them) with exponent [n]. *)
Definition layout (s n k : Z) : jsstring :=
  let d := decimal s in
  if (k <=? n) && (n <=? 21) then d ++ zeros (n - k)
  else if (0 <? n) && (n <=? 21) then
    take (Z.to_nat n) d ++ js "." ++ drop (Z.to_nat n) d
  else if (-6 <? n) && (n <=? 0) then js "0." ++ zeros (- n) ++ d
  else
    let e := n - 1 in
    let mantissa := if k =? 1 then d else take 1 d ++ js "." ++ drop 1 d in
    mantissa ++ js "e" ++ (if 0 <=? e then js "+" else js "-") ++ decimal (Z.abs e).

(** A positive finite binary64 value [m * 2^e].  Its rounding interval
    reaches half a unit in the last place on either side, a quarter below
    when [m] is the least mantissa of its binade. *)
Definition positiveToString (m : positive) (e : Z) : jsstring :=
  let m := Zpos m in
  let x := scale2 (4 * m) (e - 2) in
  let narrow := (m =? 2 ^ 52) && (-1074 <? e) in
  let low := scale2 (4 * m - (if narrow then 1 else 2)) (e - 2) in
  let high := scale2 (4 * m + 2) (e - 2) in
  let n := decimalExponent 700 x (-330) in
  let '(s, n, k) := shortest 17 x low high (Z.even m) n 1 in
  layout s n k.

(** Number::toString(x), radix 10. *)
Definition NumberToString (x : float) : jsstring :=
  match Prim2SF x with
  | S754_nan => js "NaN"
  | S754_zero _ => js "0"
  | S754_infinity false => js "Infinity"
  | S754_infinity true => js "-Infinity"
  | S754_finite false m e => positiveToString m e
  | S754_finite true m e => js "-" ++ positiveToString m e
  end.

End NumberConversion.
Export NumberConversion.

(** [Array.prototype.join(',')] over already converted elements. *)
Fixpoint joinComma (parts : list jsstring) : jsstring :=
  match parts with
  | [] => []
  | [p] => p
  | p :: rest => p ++ js "," ++ joinComma rest
  end.

(** [String(v)].  A plain object is converted by the first callable of its
    [toString] and [valueOf] that gives a primitive: an own [toString]
    property, which holds data and is never callable, hides
    [Object.prototype.toString], and [valueOf], where it is callable, gives
    back the object itself, so the conversion ends in a [TypeError], here
    [None].  An array is joined from the conversions of its elements,
    [null] and [undefined] counting as empty. *)
Fixpoint ToString (v : value) : option jsstring :=
  match v with
  | VUndefined => Some (js "undefined")
  | VNull => Some (js "null")
  | VBool true => Some (js "true")
  | VBool false => Some (js "false")
  | VNum x => Some (NumberToString x)
  | VStr s => Some s
  | VArr xs =>
      joinComma <$>
        (fix elems (l : list value) : option (list jsstring) :=
           match l with
           | [] => Some []
           | x :: l' =>
               match match x with
                     | VUndefined | VNull => Some []
                     | _ => ToString x
                     end, elems l' with
               | Some s, Some r => Some (s :: r)
               | _, _ => None
               end
           end) xs
  | VObj m =>
      if bool_decide (is_Some (m !! js "toString")) then None
      else Some (js "[object Object]")
  end.

(** [`${n}`] for an optional number. *)
Definition optNumberToString (n : option float) : jsstring :=
  match n with
  | Some x => NumberToString x
  | None => js "undefined"
  end.

(* ===================================================================== *)
(** ** Constants                                                           *)
(* ===================================================================== *)

Definition DEFAULT_BASE_URL : jsstring :=
  js "https://stem-separator-api-production.up.railway.app".
Definition DEFAULT_TIMEOUT_MS : float := 300000%float.
Definition HEALTH_TIMEOUT_MS : float := 10000%float.
Definition API_PATH_SEPARATE : jsstring := js "/api/v1/separate".
Definition API_PATH_DOWNLOAD : jsstring := js "/api/v1/separate".
Definition API_PATH_HEALTH : jsstring := js "/health".
Definition DEFAULT_FILENAME : jsstring := js "audio".
Definition VALID_STEMS : list jsstring := [js "2stems"; js "4stems"; js "5stems"].
Definition VALID_FORMATS : list jsstring :=
  [js "wav"; js "mp3"; js "flac"; js "m4a"; js "aac"; js "ogg"].

(** [arr.includes(s)] on an array of strings. *)
Definition arrayIncludes (arr : list jsstring) (s : jsstring) : bool :=
  bool_decide (s ∈ arr).

(* ===================================================================== *)
(** ** Errors                                                              *)
(* ===================================================================== *)

Inductive ErrorCodeType : Type :=
| INVALID_ARGUMENT
| API_ERROR
| NETWORK_ERROR
| TIMEOUT
| INVALID_RESPONSE.

(** The [response] property of an axios error. *)
Record ErrorResponse : Type := {
  response_status : option float;
  response_data : value;
}.

(** Whatever can be thrown or be the reason of a rejected promise.
    [ForeignError] is any value not created by this client, seen through
    the type [throwAxiosError] casts it to: an optional [response] and an
    optional textual [message]. *)
#[warnings="-register-all"]
Inductive thrown : Type :=
| StemSeparatorError (message : jsstring) (code : ErrorCodeType)
    (status : option float) (cause : option thrown)
| ForeignError (response : option ErrorResponse) (message : option jsstring)
| Nullish.

(** An [Error] of the platform or of a package, with its message. *)
Definition hostError (message : jsstring) : thrown :=
  ForeignError None (Some message).

(** The [URIError] of [encodeURIComponent] (message text as in V8). *)
Definition URIError : thrown := ForeignError None (Some (js "URI malformed")).

(** The [TypeError] of [String(v)] on an object that has no primitive value
    (message text as in V8). *)
Definition notPrimitive : thrown :=
  hostError (js "Cannot convert object to primitive value").

(** The [TypeError] of the standard [FormData.prototype.append] when it is
    given a filename and a value that is not a [Blob] (message text as in
    Node). *)
Definition notBlob : thrown :=
  hostError (js "Failed to execute 'append' on 'FormData': parameter 2 is not of type 'Blob'").

(** The [ReferenceError] of evaluating the global [File] where there is
    none. *)
Definition fileNotDefined : thrown := hostError (js "File is not defined").

(** [new StemSeparatorError(message, { code })] *)
Definition stemError (message : string) (code : ErrorCodeType) : thrown :=
  StemSeparatorError (js message) code None None.
Arguments stemError : simpl never.

Definition errorCode (e : thrown) : option ErrorCodeType :=
  match e with
  | StemSeparatorError _ c _ _ => Some c
  | _ => None
  end.

Definition errorStatus (e : thrown) : option float :=
  match e with
  | StemSeparatorError _ _ st _ => st
  | _ => None
  end.

Definition errorMessage (e : thrown) : option jsstring :=
  match e with
  | StemSeparatorError m _ _ _ => Some m
  | ForeignError _ m => m
  | Nullish => None
  end.

(** A synchronous computation: a returned value or a thrown one. *)
Inductive result (A : Type) : Type :=
| Ok (a : A)
| Err (e : thrown).
Arguments Ok {A} a.
Arguments Err {A} e.

#[export] Instance result_ret : MRet result := fun A a => Ok a.
#[export] Instance result_bind : MBind result := fun A B k r =>
  match r with
  | Ok a => k a
  | Err e => Err e
  end.
#[export] Instance result_fmap : FMap result := fun A B f r =>
  match r with
  | Ok a => Ok (f a)
  | Err e => Err e
  end.

(** [r] throws a [StemSeparatorError] with code [c]. *)
Definition failsWith {A} (c : ErrorCodeType) (r : result A) : Prop :=
  match r with
  | Err e => errorCode e = Some c
  | Ok _ => False
  end.

(* ===================================================================== *)
(** ** Validation                                                          *)
(* ===================================================================== *)

(** The inputs accepted by [separate]: [File | Blob | Buffer | string |
    Readable], and the [null] and [undefined] that untyped callers pass. *)
Inductive SeparateInput : Type :=
| InNull
| InUndefined
| InFile (content : list N)
| InBlob (content : list N)
| InBuffer (content : list N)
| InPath (path : jsstring)
| InReadable (content : list N).

Definition assertValidFileInput (file : SeparateInput) : result unit :=
  match file with
  | InNull | InUndefined => Err (stemError "file is required" INVALID_ARGUMENT)
  | InPath p =>
      let trimmed := trim p in
      if isEmpty trimmed
      then Err (stemError "file path cannot be empty" INVALID_ARGUMENT)
      else Ok tt
  | _ => Ok tt
  end.

Definition normalizeBaseUrl (baseUrl : jsstring) : result jsstring :=
  let trimmed := trim baseUrl in
  if isEmpty trimmed
  then Err (stemError "baseUrl is required" INVALID_ARGUMENT)
  else Ok (replaceTrailingSlashes trimmed).

Definition assertValidJobId (jobId : jsstring) : result unit :=
  let trimmed := trim jobId in
  if isEmpty trimmed
  then Err (stemError "jobId is required" INVALID_ARGUMENT)
  else if testPathSegment trimmed
  then Err (stemError "jobId must not contain path segments" INVALID_ARGUMENT)
  else Ok tt.

Definition sanitizeFilename (filename : jsstring) : result jsstring :=
  if includes (js "..") filename
  then Err (stemError "filename must not contain .." INVALID_ARGUMENT)
  else
    let base := trim (replaceDirPrefix filename) in
    if isEmpty base
    then Err (stemError "filename is required and must not be empty" INVALID_ARGUMENT)
    else Ok base.

(* ===================================================================== *)
(** ** Response parsing                                                    *)
(* ===================================================================== *)

(** Response from [POST /api/v1/separate]. *)
Record SeparateResponse : Type := {
  success : bool;
  message : jsstring;
  job_id : jsstring;
  stems : jsstring;
  output_files : list jsstring;
  processing_time : float;
}.

(** The callback of [outputFiles.filter]:
    [typeof f === 'string' && f.length > 0]. *)
Definition isNonEmptyString (f : value) : bool :=
  match f with
  | VStr s => negb (isEmpty s)
  | _ => false
  end.

(** The strings kept by [outputFiles.filter(...)], in order. *)
Fixpoint filterNonEmptyStrings (fs : list value) : list jsstring :=
  match fs with
  | [] => []
  | f :: fs' =>
      match f with
      | VStr s => if negb (isEmpty s) then s :: filterNonEmptyStrings fs'
                  else filterNonEmptyStrings fs'
      | _ => filterNonEmptyStrings fs'
      end
  end.

(** Parse and validate API JSON. *)
Definition parseSeparateResponse (body : value) : result SeparateResponse :=
  if negb (isObject body)
  then Err (stemError "API response is not an object" INVALID_RESPONSE)
  else
    let success := getProp (js "success") body in
    let jobId := getProp (js "job_id") body in
    let outputFiles := getProp (js "output_files") body in
    match success with
    | VBool false =>
        let message :=
          match getProp (js "message") body with
          | VStr m => m
          | _ => js "Separation failed"
          end in
        Err (StemSeparatorError message API_ERROR
               (match getProp (js "status") body with
                | VNum n => Some n
                | _ => None
                end) None)
    | VBool true =>
        match jobId with
        | VStr jobId =>
            if isEmpty (trim jobId)
            then Err (stemError "API response missing valid job_id" INVALID_RESPONSE)
            else
              match outputFiles with
              | VArr outputFiles =>
                  let stems :=
                    match getProp (js "stems") body with
                    | VStr s => if arrayIncludes VALID_STEMS s then s else js "2stems"
                    | _ => js "2stems"
                    end in
                  Ok {| success := true;
                        message := match getProp (js "message") body with
                                   | VStr m => m
                                   | _ => []
                                   end;
                        job_id := jobId;
                        stems := stems;
                        output_files := filterNonEmptyStrings outputFiles;
                        processing_time :=
                          match getProp (js "processing_time") body with
                          | VNum t => if PrimFloat.leb 0 t then t else 0%float
                          | _ => 0%float
                          end |}
              | _ => Err (stemError "API response missing output_files array"
                            INVALID_RESPONSE)
              end
        | _ => Err (stemError "API response missing valid job_id" INVALID_RESPONSE)
        end
    | _ => Err (stemError "API response missing success: true" INVALID_RESPONSE)
    end.

(* ===================================================================== *)
(** ** Error mapping (axios)                                               *)
(* ===================================================================== *)

(** [axiosErr?.response]: only a foreign error object can carry one. *)
Definition errorResponse (err : thrown) : option ErrorResponse :=
  match err with
  | ForeignError r _ => r
  | _ => None
  end.

(** [throwAxiosError] never returns; its value here is what it throws: the
    [StemSeparatorError] it builds, or the [TypeError] of [String(detail)]
    raised while it builds the message. *)
Definition throwAxiosError (err : thrown) (onTimeout onNetwork : jsstring) : thrown :=
  match errorResponse err with
  | Some response =>
      let status := response_status response in
      let data := response_data response in
      let message :=
        if isObject data && hasProp (js "detail") data
        then ToString (getProp (js "detail") data)
        else Some (js "API error: " ++ optNumberToString status) in
      match message with
      | Some message => StemSeparatorError message API_ERROR status (Some err)
      | None => notPrimitive
      end
  | None =>
      match errorMessage err with
      | Some m =>
          if includes (js "timeout") m
          then StemSeparatorError onTimeout TIMEOUT None (Some err)
          else StemSeparatorError m NETWORK_ERROR None (Some err)
      | None => StemSeparatorError onNetwork NETWORK_ERROR None (Some err)
      end
  end.

(* ===================================================================== *)
(** ** Request building                                                    *)
(* ===================================================================== *)

Record SeparateOptions : Type := {
  opt_filename : option jsstring;
  opt_stems : option jsstring;
  opt_bitrate : option jsstring;
  opt_format : option jsstring;
}.

(** [{}], the default of [separate]'s second parameter. *)
Definition noOptions : SeparateOptions :=
  {| opt_filename := None; opt_stems := None; opt_bitrate := None; opt_format := None |}.

(** ASCII alphanumerics and [*-._]: the bytes that the
    application/x-www-form-urlencoded serializer leaves as they are. *)
Definition isFormSafe (c : codeunit) : bool :=
  ((0x41 <=? c) && (c <=? 0x5A)) || ((0x61 <=? c) && (c <=? 0x7A))
  || ((0x30 <=? c) && (c <=? 0x39))
  || (c =? 0x2A) || (c =? 0x2D) || (c =? 0x2E) || (c =? 0x5F).

(** One name or value as serialized by [URLSearchParams.prototype.toString]:
    UTF-8 with unpaired surrogates replaced by U+FFFD, space as [+]. *)
Fixpoint urlencoded (s : jsstring) : jsstring :=
  match s with
  | [] => []
  | c :: rest =>
      if c =? 0x20 then 0x2B :: urlencoded rest
      else if isFormSafe c then c :: urlencoded rest
      else if isLeadSurrogate c then
        match rest with
        | d :: rest' =>
            if isTrailSurrogate d
            then percentOctets (utf8 (pairCodePoint c d)) ++ urlencoded rest'
            else percentOctets (utf8 0xFFFD) ++ urlencoded rest
        | [] => percentOctets (utf8 0xFFFD)
        end
      else if isTrailSurrogate c then percentOctets (utf8 0xFFFD) ++ urlencoded rest
      else percentOctets (utf8 c) ++ urlencoded rest
  end.

(** [params.toString()] for parameters set under distinct names, in the
    order they were set. *)
Fixpoint searchParamsToString (params : list (jsstring * jsstring)) : jsstring :=
  match params with
  | [] => []
  | [(k, v)] => urlencoded k ++ js "=" ++ urlencoded v
  | (k, v) :: rest => urlencoded k ++ js "=" ++ urlencoded v ++ js "&" ++ searchParamsToString rest
  end.

Definition buildSeparateQueryString (options : SeparateOptions) : jsstring :=
  let stemsParam :=
    match opt_stems options with
    | Some s => if negb (isEmpty s) && arrayIncludes VALID_STEMS s
                then [(js "stems", s)] else []
    | None => []
    end in
  let bitrateParam :=
    match opt_bitrate options with
    | Some b => if negb (isEmpty b) && negb (isEmpty (trim b))
                then [(js "bitrate", trim b)] else []
    | None => []
    end in
  let formatParam :=
    match opt_format options with
    | Some f => if negb (isEmpty f) && arrayIncludes VALID_FORMATS f
                then [(js "format", f)] else []
    | None => []
    end in
  let qs := searchParamsToString (stemsParam ++ bitrateParam ++ formatParam) in
  if isEmpty qs then [] else js "?" ++ qs.

(** Request headers are a [Record<string, string>]: a finite map. *)
Definition getAuthHeaders (apiKey : jsstring) : gmap (list N) (list N) :=
  if negb (isEmpty apiKey) && negb (isEmpty (trim apiKey))
  then {[ js "Authorization" := js "Bearer " ++ trim apiKey ]}
  else ∅.

(** What [form.append] was given as the value of the part. *)
Inductive PartValue : Type :=
| PartInput (file : SeparateInput)
| PartReadStream (path : jsstring).

(** One [form.append(name, value, filename)]. *)
Record FormPart : Type := {
  part_name : jsstring;
  part_value : PartValue;
  part_filename : jsstring;
}.

Inductive FormImpl : Type := NativeFormData | FormDataPackage.

Record Form : Type := {
  form_impl : FormImpl;
  form_parts : list FormPart;
}.

(** The host runtime: which globals exist, Node's [path.basename], and the
    [form-data] package: what its [append] throws for a part, if it throws
    (the message of the error), and the [getHeaders] method of its forms
    when they have one.  [require] is taken to resolve [fs], [path],
    [form-data] and [axios], and [Blob] to exist wherever [File] does. *)
Class Host := {
  has_FormData : bool;
  has_File : bool;
  has_fetch : bool;
  path_basename : jsstring -> jsstring;
  package_append : FormPart -> option jsstring;
  form_getHeaders : option (Form -> gmap (list N) (list N));
}.

(** [path.posix.basename(p)]: the last portion of [p], trailing slashes
    ignored. *)
Definition posix_basename (p : jsstring) : jsstring :=
  let q := dropWhileEnd isSlash p in
  match lastIndexWhere isSlash q with
  | Some i => drop (S i) q
  | None => q
  end.

Section Requests.
Context `{Host}.

Definition isFileOrBlob (file : SeparateInput) : bool :=
  match file with
  | InFile _ | InBlob _ => true
  | _ => false
  end.

(** [path.basename(file) || filename] *)
Definition streamName (file filename : jsstring) : jsstring :=
  if isEmpty (path_basename file) then filename else path_basename file.

(** [form.append(name, value, filename)] of the standard [FormData]: called
    with a filename, it takes a [Blob] ([File] is one) and throws a
    [TypeError] for any other value. *)
Definition nativeAppend (part : FormPart) : option thrown :=
  match part_value part with
  | PartInput (InFile _) | PartInput (InBlob _) => None
  | _ => Some notBlob
  end.

(** [new F(); form.append('file', value, filename)]: the form with its one
    part, unless [append] throws. *)
Definition appendFile (impl : FormImpl) (value : PartValue) (filename : jsstring)
  : result Form :=
  let part := {| part_name := js "file"; part_value := value;
                 part_filename := filename |} in
  match match impl with
        | NativeFormData => nativeAppend part
        | FormDataPackage => hostError <$> package_append part
        end with
  | Some e => Err e
  | None => Ok {| form_impl := impl; form_parts := [part] |}
  end.

(** Build the multipart form for the file, and the headers it needs.  The
    first test evaluates [File] as soon as [FormData] is defined. *)
Definition createForm (file : SeparateInput) (filename : jsstring)
  : result (Form * gmap (list N) (list N)) :=
  if has_FormData && negb has_File then Err fileNotDefined
  else if has_FormData && isFileOrBlob file then
    form ← appendFile NativeFormData (PartInput file) filename;
    Ok (form, ∅)
  else if has_FormData then
    match file with
    | InPath p =>
        form ← appendFile NativeFormData (PartReadStream p) (streamName p filename);
        Ok (form, ∅)
    | _ =>
        form ← appendFile NativeFormData (PartInput file) filename;
        Ok (form, ∅)
    end
  else
    form ← match file with
           | InPath p =>
               appendFile FormDataPackage (PartReadStream p) (streamName p filename)
           | _ => appendFile FormDataPackage (PartInput file) filename
           end;
    Ok (form, match form_getHeaders with
              | Some getHeaders => getHeaders form
              | None => ∅
              end).

End Requests.

(* ===================================================================== *)
(** ** Transport                                                           *)
(* ===================================================================== *)

Inductive Method : Type := GET | POST.

(** One HTTP request handed to axios or to [fetch]. *)
Record Request : Type := {
  req_method : Method;
  req_url : jsstring;
  req_headers : gmap (list N) (list N);
  req_body : option Form;
  req_timeout : float;
}.

(** How an axios call settles; [D] is the type of [res.data]. *)
Inductive AxiosOutcome (D : Type) : Type :=
| AxiosResolved (data : D)
| AxiosRejected (err : thrown).
Arguments AxiosResolved {D} data.
Arguments AxiosRejected {D} err.

(** A [fetch] [Response], with the way each of its body readers settles. *)
Record Response : Type := {
  res_ok : bool;
  res_status : float;
  res_statusText : jsstring;
  res_json : result value;
  res_text : result jsstring;
  res_arrayBuffer : result (list N);
}.

(** How the [fetch] raced against the abort timer settles: a response, a
    rejection with an [Error] instance (its [name] and [message]), or a
    rejection with anything else. *)
Inductive FetchOutcome : Type :=
| FetchResolved (res : Response)
| FetchRejectedError (name message : jsstring)
| FetchRejectedOther (err : thrown).

(** An [async] operation: it returns, throws, or awaits one transport
    request and continues with its outcome. *)
Inductive io (A : Type) : Type :=
| Return (a : A)
| Throw (e : thrown)
| AxiosJson (req : Request) (k : AxiosOutcome value -> io A)
| AxiosArrayBuffer (req : Request) (k : AxiosOutcome (list N) -> io A)
| Fetch (req : Request) (k : FetchOutcome -> io A).
Arguments Return {A} a.
Arguments Throw {A} e.
Arguments AxiosJson {A} req k.
Arguments AxiosArrayBuffer {A} req k.
Arguments Fetch {A} req k.

Definition ofResult {A} (r : result A) : io A :=
  match r with
  | Ok a => Return a
  | Err e => Throw e
  end.

(** The request an operation issues first, if it issues any. *)
Definition firstRequest {A} (p : io A) : option Request :=
  match p with
  | Return _ | Throw _ => None
  | AxiosJson req _ | AxiosArrayBuffer req _ | Fetch req _ => Some req
  end.

(** The operation settles without having issued a transport request. *)
Definition noTransportCall {A} (p : io A) : Prop := firstRequest p = None.

(** The operation rejects with a [StemSeparatorError] of code [c]. *)
Definition rejectsWith {A} (c : ErrorCodeType) (p : io A) : Prop :=
  match p with
  | Throw e => errorCode e = Some c
  | _ => False
  end.

(** The filename of the file part of the multipart body of the first
    request. *)
Definition multipartFilename {A} (p : io A) : option jsstring :=
  req ← firstRequest p;
  form ← req_body req;
  part ← head (form_parts form);
  Some (part_filename part).

(** [P] holds of the URL of every request the operation can issue. *)
Fixpoint everyRequestUrl {A} (P : jsstring -> Prop) (p : io A) : Prop :=
  match p with
  | Return _ | Throw _ => True
  | AxiosJson req k => P (req_url req) /\ forall o, everyRequestUrl P (k o)
  | AxiosArrayBuffer req k => P (req_url req) /\ forall o, everyRequestUrl P (k o)
  | Fetch req k => P (req_url req) /\ forall o, everyRequestUrl P (k o)
  end.

(* ===================================================================== *)
(** ** Client                                                              *)
(* ===================================================================== *)

Record StemSeparatorClientOptions : Type := {
  o_baseUrl : option jsstring;
  o_apiKey : option jsstring;
  o_timeout : option float;
}.

(** The three [private readonly] fields of the class. *)
Record StemSeparatorClient : Type := {
  baseUrl : jsstring;
  apiKey : jsstring;
  timeout : float;
}.

(** [new StemSeparatorClient(options)] *)
Definition newStemSeparatorClient (options : StemSeparatorClientOptions)
  : result StemSeparatorClient :=
  baseUrl ← normalizeBaseUrl
              (match o_baseUrl options with
               | Some b => trim b
               | None => DEFAULT_BASE_URL
               end);
  let apiKey := default [] (o_apiKey options) in
  let timeout := default DEFAULT_TIMEOUT_MS (o_timeout options) in
  if PrimFloat.ltb timeout 1
  then Err (stemError "timeout must be a positive number" INVALID_ARGUMENT)
  else Ok {| baseUrl := baseUrl; apiKey := apiKey; timeout := timeout |}.

(** The filename [separate] hands to [createForm]:
    [options.filename?.trim() && options.filename.trim().length > 0
       ? sanitizeFilename(options.filename.trim()) : DEFAULT_FILENAME]. *)
Definition separateFilename (options : SeparateOptions) : result jsstring :=
  match opt_filename options with
  | Some f =>
      if negb (isEmpty (trim f)) && negb (isEmpty (trim f))
      then sanitizeFilename (trim f)
      else Ok DEFAULT_FILENAME
  | None => Ok DEFAULT_FILENAME
  end.

(** [getStemDownloadUrl] is synchronous and awaits nothing: a [result]. *)
Definition getStemDownloadUrl (c : StemSeparatorClient) (jobId filename : jsstring)
  : result jsstring :=
  _ ← assertValidJobId jobId;
  safeName ← sanitizeFilename filename;
  match encodeURIComponent jobId with
  | None => Err URIError
  | Some encodedJob =>
      match encodeURIComponent safeName with
      | None => Err URIError
      | Some encodedFile =>
          Ok (baseUrl c ++ API_PATH_DOWNLOAD ++ js "/" ++ encodedJob
                ++ js "/download/" ++ encodedFile)
      end
  end.

Section Operations.
Context `{Host}.

(** The [catch] of [fetchWithTimeout]. *)
Definition fetchWithTimeout (o : FetchOutcome) (timeoutMs : float) : result Response :=
  match o with
  | FetchResolved res => Ok res
  | FetchRejectedError name message =>
      let err := ForeignError None (Some message) in
      if bool_decide (name = js "AbortError")
      then Err (StemSeparatorError
                  (js "Request timed out after " ++ NumberToString timeoutMs ++ js "ms")
                  TIMEOUT None (Some err))
      else Err (StemSeparatorError message NETWORK_ERROR None (Some err))
  | FetchRejectedOther err =>
      Err (StemSeparatorError (js "Network request failed") NETWORK_ERROR None (Some err))
  end.

(** [String(body.detail)] when [body] is an object with a [detail]; [None]
    when that conversion throws. *)
Definition detailOr (body : value) (fallback : jsstring) : option jsstring :=
  if isObject body && hasProp (js "detail") body
  then ToString (getProp (js "detail") body)
  else Some fallback.

Definition separate (c : StemSeparatorClient) (file : SeparateInput)
    (options : SeparateOptions) : io SeparateResponse :=
  match assertValidFileInput file with
  | Err e => Throw e
  | Ok _ =>
  match separateFilename options with
  | Err e => Throw e
  | Ok filename =>
      let queryString := buildSeparateQueryString options in
      let url := baseUrl c ++ API_PATH_SEPARATE ++ queryString in
      let headers := getAuthHeaders (apiKey c) in
      match createForm file filename with
      | Err e => Throw e
      | Ok (form, formHeaders) =>
      let headers := formHeaders ∪ headers in
      let req := {| req_method := POST; req_url := url; req_headers := headers;
                    req_body := Some form; req_timeout := timeout c |} in
      if negb has_fetch then
        AxiosJson req (fun o =>
          let messages_onTimeout :=
            js "Request timed out after " ++ NumberToString (timeout c) ++ js "ms" in
          let messages_onNetwork := js "Request failed" in
          match o with
          | AxiosResolved data =>
              match parseSeparateResponse data with
              | Ok r => Return r
              | Err err => Throw (throwAxiosError err messages_onTimeout messages_onNetwork)
              end
          | AxiosRejected err =>
              Throw (throwAxiosError err messages_onTimeout messages_onNetwork)
          end)
      else
        Fetch req (fun o =>
          match fetchWithTimeout o (timeout c) with
          | Err e => Throw e
          | Ok res =>
              let status := NumberToString (res_status res) in
              match res_json res with
              | Err _ =>
                  match res_text res with
                  | Err e => Throw e
                  | Ok text =>
                      Throw (StemSeparatorError
                               (js "API error: " ++ status ++ js " " ++ res_statusText res
                                  ++ js " - " ++ text)
                               API_ERROR (Some (res_status res)) None)
                  end
              | Ok body =>
                  if negb (res_ok res) then
                    match detailOr body
                            (js "API error: " ++ status ++ js " " ++ res_statusText res) with
                    | Some message =>
                        Throw (StemSeparatorError message API_ERROR
                                 (Some (res_status res)) None)
                    | None => Throw notPrimitive
                    end
                  else ofResult (parseSeparateResponse body)
              end
          end)
      end
  end
  end.

Definition downloadStem (c : StemSeparatorClient) (jobId filename : jsstring)
  : io (list N) :=
  match assertValidJobId jobId with
  | Err e => Throw e
  | Ok _ =>
  match sanitizeFilename filename with
  | Err e => Throw e
  | Ok _ =>
  match getStemDownloadUrl c jobId filename with
  | Err e => Throw e
  | Ok url =>
      let headers := getAuthHeaders (apiKey c) in
      let req := {| req_method := GET; req_url := url; req_headers := headers;
                    req_body := None; req_timeout := timeout c |} in
      if negb has_fetch then
        AxiosArrayBuffer req (fun o =>
          match o with
          | AxiosResolved data => Return data
          | AxiosRejected err =>
              Throw (throwAxiosError err
                       (js "Download timed out after " ++ NumberToString (timeout c) ++ js "ms")
                       (js "Download failed"))
          end)
      else
        Fetch req (fun o =>
          match fetchWithTimeout o (timeout c) with
          | Err e => Throw e
          | Ok res =>
              if negb (res_ok res) then
                match res_text res with
                | Err e => Throw e
                | Ok text =>
                    Throw (StemSeparatorError
                             (js "Download error: " ++ NumberToString (res_status res)
                                ++ js " " ++ res_statusText res ++ js " - " ++ text)
                             API_ERROR (Some (res_status res)) None)
                end
              else ofResult (res_arrayBuffer res)
          end)
  end
  end
  end.

(** [checkHealth] returns the payload as received ([as HealthResponse] is
    a cast). *)
Definition checkHealth (c : StemSeparatorClient) : io value :=
  let url := baseUrl c ++ API_PATH_HEALTH in
  let req := {| req_method := GET; req_url := url; req_headers := ∅;
                req_body := None; req_timeout := HEALTH_TIMEOUT_MS |} in
  if negb has_fetch then
    AxiosJson req (fun o =>
      match o with
      | AxiosResolved data => Return data
      | AxiosRejected err =>
          Throw (throwAxiosError err (js "Health check failed") (js "Health check failed"))
      end)
  else
    Fetch req (fun o =>
      match fetchWithTimeout o HEALTH_TIMEOUT_MS with
      | Err e => Throw e
      | Ok res =>
          if negb (res_ok res) then
            Throw (StemSeparatorError
                     (js "Health check failed: " ++ NumberToString (res_status res))
                     API_ERROR (Some (res_status res)) None)
          else ofResult (res_json res)
      end)
  .

End Operations.

(* ===================================================================== *)
(** ** Vocabulary of the specification                                     *)
(* ===================================================================== *)

(** The body's [success] flag is explicitly the boolean [b]. *)
Definition successIs (b : bool) (body : value) : bool :=
  match getProp (js "success") body with
  | VBool b' => Bool.eqb b b'
  | _ => false
  end.

(** [job_id] is missing, not a string, or empty after trimming. *)
Definition jobIdMissingOrBlank (body : value) : bool :=
  match getProp (js "job_id") body with
  | VStr j => isEmpty (trim j)
  | _ => true
  end.

(** [output_files] is an array. *)
Definition outputFilesIsArray (body : value) : bool :=
  isArray (getProp (js "output_files") body).

(** The text of a field when it is a string, else [dflt]. *)
Definition textOr (dflt : jsstring) (v : value) : jsstring :=
  match v with
  | VStr s => s
  | _ => dflt
  end.

(** The number in a field when it is a number. *)
Definition numberOf (v : value) : option float :=
  match v with
  | VNum n => Some n
  | _ => None
  end.

(** The elements of a field when it is an array. *)
Definition elementsOf (v : value) : list value :=
  match v with
  | VArr xs => xs
  | _ => []
  end.

(** The explicit-failure payload [{success: false, ...}]. *)
Definition explicitFailure (body : value) : Prop :=
  isObject body = true /\ successIs false body = true.

(** A body with everything the success path requires. *)
Definition acceptable (body : value) : Prop :=
  isObject body = true /\ successIs true body = true
  /\ jobIdMissingOrBlank body = false /\ outputFilesIsArray body = true.

(** The body of the specification's round-trip example. *)
Definition roundTripBody : value :=
  obj [(js "success", VBool true);
       (js "job_id", VStr (js "job-1"));
       (js "output_files", VArr [VStr (js "vocals.wav"); VStr (js "drums.wav")]);
       (js "stems", VStr (js "4stems"));
       (js "processing_time", VNum 12.5%float)].

(** A job identifier that [assertValidJobId] must refuse: blank after
    trimming, or with [..], [/] or [\] in its trimmed form. *)
Definition unsafeJobId (jobId : jsstring) : Prop :=
  trim jobId = []
  \/ includes (js "..") (trim jobId) = true
  \/ SLASH ∈ trim jobId
  \/ BACKSLASH ∈ trim jobId.

(** The text after the last [/] or [\]; the whole text without one. *)
Definition afterLastSeparator (s : jsstring) : jsstring :=
  match lastIndexWhere isSeparator s with
  | Some i => drop (S i) s
  | None => s
  end.

(** A line terminator occurs before the last [/] or [\]. *)
Definition lineTerminatorBeforeLastSeparator (s : jsstring) : bool :=
  match lastIndexWhere isSeparator s with
  | Some i => existsb isLineTerminator (take i s)
  | None => false
  end.

(** The text ends with a white-space code unit. *)
Definition endsWithWhiteSpace (s : jsstring) : bool :=
  match last s with
  | Some c => isWhiteSpace c
  | None => false
  end.

(** The client of the repository's tests. *)
Definition exampleClient : StemSeparatorClient :=
  {| baseUrl := js "https://api.example.com"; apiKey := [];
     timeout := DEFAULT_TIMEOUT_MS |}.


(** The [detail] of an error body, when the body is a non-null object that
    has one. *)
Definition detailOf (data : value) : option value :=
  if isObject data && hasProp (js "detail") data
  then Some (getProp (js "detail") data)
  else None.


(** The file argument is [null], [undefined], or a path that is blank after
    trimming. *)
Definition missingOrBlankFile (file : SeparateInput) : Prop :=
  file = InNull \/ file = InUndefined \/ exists p, file = InPath p /\ trim p = [].

(** The [filename] option is absent, or blank after trimming. *)
Definition blankFilenameOption (options : SeparateOptions) : Prop :=
  opt_filename options = None
  \/ exists f, opt_filename options = Some f /\ trim f = [].

(** The filename of the multipart part when [createForm] is handed [name]:
    a path input is attached under its own basename unless that is empty. *)
Definition attachedAs `{Host} (file : SeparateInput) (name : jsstring) : jsstring :=
  match file with
  | InPath p => if isEmpty (path_basename p) then name else path_basename p
  | _ => name
  end.

(** The part [createForm] appends for a file. *)
Definition partOf `{Host} (file : SeparateInput) (name : jsstring) : FormPart :=
  {| part_name := js "file";
     part_value := match file with
                   | InPath p => PartReadStream p
                   | _ => PartInput file
                   end;
     part_filename := attachedAs file name |}.

(** The host can attach the file to a form.  With a global [FormData] the
    file has to be a [File] or a [Blob], and [File] has to be defined;
    without one, the [form-data] package has to take the part. *)
Definition attachable `{Host} (file : SeparateInput) (name : jsstring) : bool :=
  if has_FormData then has_File && isFileOrBlob file
  else bool_decide (package_append (partOf file name) = None).

(** Node 20 or later on a POSIX system: [FormData], [File], [Blob] and
    [fetch] are global. *)
Definition node20 : Host :=
  {| has_FormData := true; has_File := true; has_fetch := true;
     path_basename := posix_basename;
     package_append := fun _ => None; form_getHeaders := None |}.

(** Node 18 on a POSIX system: [FormData] and [fetch] are global, [File] is
    not. *)
Definition node18 : Host :=
  {| has_FormData := true; has_File := false; has_fetch := true;
     path_basename := posix_basename;
     package_append := fun _ => None; form_getHeaders := None |}.

(** Node 16 on a POSIX system: none of these globals exists.  The
    [form-data] package takes a [Buffer] or a stream, as it documents, and
    supplies the multipart content type; for any other value its [append]
    ends in a [TypeError]. *)
Definition node16 : Host :=
  {| has_FormData := false; has_File := false; has_fetch := false;
     path_basename := posix_basename;
     package_append := fun part =>
       match part_value part with
       | PartReadStream _ | PartInput (InBuffer _) | PartInput (InReadable _) => None
       | PartInput InNull =>
           Some (js "Cannot read properties of null (reading 'name')")
       | PartInput InUndefined =>
           Some (js "Cannot read properties of undefined (reading 'name')")
       | _ => Some (js "source.on is not a function")
       end;
     form_getHeaders :=
       Some (fun _ => {[ js "content-type" :=
                           js "multipart/form-data; boundary=------------------------0123456789" ]}) |}.



(** An axios error for a response whose [detail] is an object with a
    [toString] entry of its own. *)
Definition unprintable : thrown :=
  ForeignError
    (Some {| response_status := Some 422%float;
             response_data :=
               obj [(js "detail", obj [(js "toString", VNum 1%float)])] |})
    (Some (js "Request failed with status code 422")).

(** How an operation continues once its first request, made through axios
    with a JSON response type, has settled with [o]. *)
Definition afterAxiosJson {A} (p : io A) (o : AxiosOutcome value) : option (io A) :=
  match p with
  | AxiosJson _ k => Some (k o)
  | _ => None
  end.

(** How an operation continues once its first request, made through
    [fetch], has settled with [o]. *)
Definition afterFetch {A} (p : io A) (o : FetchOutcome) : option (io A) :=
  match p with
  | Fetch _ k => Some (k o)
  | _ => None
  end.

(** The explicit-failure payload of the specification's scenario. *)
Definition badAudioBody : value :=
  obj [(js "success", VBool false);
       (js "message", VStr (js "bad audio"));
       (js "status", VNum 400%float)].

(* ===================================================================== *)
(** ** Vocabulary for the rest of the client                               *)
(* ===================================================================== *)

(** Every code unit fits in 16 bits, as in any JavaScript string. *)
Definition is16bit (s : jsstring) : Prop := Forall (fun c => c < 0x10000) s.

(** What a percent-encoded path segment is made of: an unreserved
    character, or [%]. *)
Definition isSegmentChar (c : codeunit) : bool := isUnreserved c || (c =? 0x25).

(** What a serialized query string is made of besides its [?], [=] and
    [&]: a form-safe character, [%] or [+]. *)
Definition isQueryChar (c : codeunit) : bool :=
  isFormSafe c || (c =? 0x25) || (c =? 0x2B).

(** The base URL the constructor starts from: the option, or the default. *)
Definition requestedBaseUrl (options : StemSeparatorClientOptions) : jsstring :=
  default DEFAULT_BASE_URL (o_baseUrl options).

(** The timeout the constructor starts from: the option, or the default. *)
Definition requestedTimeout (options : StemSeparatorClientOptions) : float :=
  default DEFAULT_TIMEOUT_MS (o_timeout options).






(** The error is an API_ERROR that carries the status of [res]. *)
Definition apiErrorOf (res : Response) (e : thrown) : Prop :=
  errorCode e = Some API_ERROR /\ errorStatus e = Some (res_status res).

(** The operation issues one transport request at most: once its first
    request has settled, it returns or throws. *)
Definition atMostOneRequest {A} (p : io A) : Prop :=
  match p with
  | Return _ | Throw _ => True
  | AxiosJson _ k => forall o, noTransportCall (k o)
  | AxiosArrayBuffer _ k => forall o, noTransportCall (k o)
  | Fetch _ k => forall o, noTransportCall (k o)
  end.

(** A [StemSeparatorError] whose [status] is set only under API_ERROR. *)
Definition wellFormedError (e : thrown) : Prop :=
  is_Some (errorCode e)
  /\ (is_Some (errorStatus e) -> errorCode e = Some API_ERROR).


(** The characters of a percent escape: [%] and the upper-case hexadecimal
    digits. *)
Definition isPercentOrHex (c : codeunit) : bool :=
  (c =? 0x25) || ((0x30 <=? c) && (c <=? 0x39)) || ((0x41 <=? c) && (c <=? 0x46)).

(** The characters a query string built by this client can hold after its
    [?]: those of a serialized name or value, [=] and [&]. *)
Definition isQueryStringChar (c : codeunit) : bool :=
  isQueryChar c || (c =? 0x3D) || (c =? 0x26).

(** An option as [buildSeparateQueryString] reads it: kept when it is one
    of the recognized values. *)
Definition recognizedOnly (valid : list jsstring) (o : option jsstring)
  : option jsstring :=
  match o with
  | Some s => if arrayIncludes valid s then Some s else None
  | None => None
  end.

(** A bitrate as [buildSeparateQueryString] reads it: trimmed, and kept
    when something is left. *)
Definition trimmedNonBlank (o : option jsstring) : option jsstring :=
  match o with
  | Some b => if isEmpty (trim b) then None else Some (trim b)
  | None => None
  end.

(** The [fetch] was aborted by the timer: it rejected with an [Error] named
    ["AbortError"]. *)
Definition aborted (o : FetchOutcome) : bool :=
  match o with
  | FetchRejectedError name _ => bool_decide (name = js "AbortError")
  | _ => false
  end.

(** The [fetch] rejected: no response was received. *)
Definition fetchRejected (o : FetchOutcome) : bool :=
  match o with
  | FetchResolved _ => false
  | _ => true
  end.



(** The number of parameters [buildSeparateQueryString] sets. *)
Definition paramCount (options : SeparateOptions) : nat :=
  length (option_list (recognizedOnly VALID_STEMS (opt_stems options)))
  + length (option_list (trimmedNonBlank (opt_bitrate options)))
  + length (option_list (recognizedOnly VALID_FORMATS (opt_format options))).

(** The number of occurrences of a code unit in a string. *)
Definition occurrences (c : codeunit) (s : jsstring) : nat :=
  length (List.filter (fun x => x =? c) s).

(** The [filename] option is not blank, and [sanitizeFilename] refuses its
    trimmed form. *)
Definition refusedFilenameOption (options : SeparateOptions) : Prop :=
  exists f e, opt_filename options = Some f /\ trim f <> []
    /\ sanitizeFilename (trim f) = Err e.

(* ===================================================================== *)
(** ** Tactics                                                             *)
(* ===================================================================== *)

(** Chooses the disjunct, or the witness, that holds by computation. *)
Ltac pick :=
  solve [ reflexivity | assumption | eexists; reflexivity
        | left; pick | right; pick ].

(** Closes a goal made of equivalences between decided cases. *)
Ltac settle :=
  unfold not; repeat split; intros;
  repeat match goal with
         | H : _ /\ _ |- _ => destruct H
         | H : _ \/ _ |- _ => destruct H
         end;
  try discriminate; try congruence; try contradiction;
  try (match goal with
       | H : _ -> False |- _ =>
           exfalso; apply H; repeat split; (reflexivity || assumption)
       end);
  try pick.

(* ===================================================================== *)
(** ** Response parser                                                     *)
(* ===================================================================== *)

Lemma filterNonEmptyStrings_filter (fs : list value) :
  VStr <$> filterNonEmptyStrings fs = List.filter isNonEmptyString fs.
Proof.
  induction fs as [|f fs IH]; [reflexivity|].
  destruct f as [| | | |s| |]; try exact IH.
  change (VStr <$> (if negb (isEmpty s) then s :: filterNonEmptyStrings fs
                    else filterNonEmptyStrings fs)
          = if negb (isEmpty s) then VStr s :: List.filter isNonEmptyString fs
            else List.filter isNonEmptyString fs).
  destruct (isEmpty s); simpl; [exact IH | now f_equal].
Qed.

(** C1. [parseSeparateResponse] throws API_ERROR exactly on an object whose
    [success] is explicitly [false], with the body's textual [message] (else
    "Separation failed") and its numeric [status]; failing that case, it
    throws INVALID_RESPONSE exactly when the body is not an object, or
    [success] is not explicitly [true], or [job_id] is missing, not a string
    or blank, or [output_files] is not an array; in every remaining case it
    returns a result. *)
Theorem parseSeparateResponse_failures (body : value) :
  (failsWith API_ERROR (parseSeparateResponse body) <-> explicitFailure body)
  /\ (explicitFailure body ->
      parseSeparateResponse body =
        Err (StemSeparatorError
               (textOr (js "Separation failed") (getProp (js "message") body))
               API_ERROR (numberOf (getProp (js "status") body)) None))
  /\ (failsWith INVALID_RESPONSE (parseSeparateResponse body) <->
        ~ explicitFailure body
        /\ (isObject body = false \/ successIs true body = false
            \/ jobIdMissingOrBlank body = true \/ outputFilesIsArray body = false))
  /\ (~ failsWith API_ERROR (parseSeparateResponse body) ->
      ~ failsWith INVALID_RESPONSE (parseSeparateResponse body) ->
      exists r, parseSeparateResponse body = Ok r).
Proof.
  unfold explicitFailure, parseSeparateResponse, successIs, jobIdMissingOrBlank,
    outputFilesIsArray, textOr, numberOf.
  destruct (isObject body); simpl.
  2: { settle. }
  destruct (getProp (js "success") body) as [| |[|]| | | |]; simpl;
    try solve [settle].
  destruct (getProp (js "job_id") body) as [| | | |j| |]; simpl;
    try solve [settle].
  destruct (isEmpty (trim j)); simpl; try solve [settle].
  destruct (getProp (js "output_files") body); simpl; settle.
Qed.

(** The parser returns a result exactly on the acceptable bodies. *)
Lemma parseSeparateResponse_accepts (body : value) :
  (exists r, parseSeparateResponse body = Ok r) <-> acceptable body.
Proof.
  unfold acceptable, parseSeparateResponse, successIs, jobIdMissingOrBlank,
    outputFilesIsArray.
  destruct (isObject body); simpl.
  2: { split; [intros [r Hr]; discriminate | intros (Hf & _); discriminate]. }
  destruct (getProp (js "success") body) as [| |[|]| | | |]; simpl;
    try (split; [intros [r Hr]; discriminate | intros (_ & Hf & _); discriminate]).
  destruct (getProp (js "job_id") body) as [| | | |j| |]; simpl;
    try (split; [intros [r Hr]; discriminate | intros (_ & _ & Hf & _); discriminate]).
  destruct (isEmpty (trim j)); simpl;
    try (split; [intros [r Hr]; discriminate | intros (_ & _ & Hf & _); discriminate]).
  destruct (getProp (js "output_files") body); simpl;
    try (split; [intros [r Hr]; discriminate | intros (_ & _ & _ & Hf); discriminate]).
  split; [intros _; repeat split | intros _; eexists; reflexivity].
Qed.

(** C2. On a body with everything the success path requires,
    [parseSeparateResponse] returns a result whose [message] is the body's
    when textual and empty otherwise, whose [stems] is the body's when it is
    a recognized value and "2stems" otherwise, whose [output_files] are the
    non-empty strings of the body's array in order, and whose
    [processing_time] is the body's when it is a number [>= 0] and [0]
    otherwise; the round-trip example keeps its exact field values. *)
Theorem parseSeparateResponse_fields :
  (forall body : value,
      acceptable body ->
      exists r, parseSeparateResponse body = Ok r
        /\ success r = true
        /\ VStr (job_id r) = getProp (js "job_id") body
        /\ message r = textOr [] (getProp (js "message") body)
        /\ (forall s, getProp (js "stems") body = VStr s -> s ∈ VALID_STEMS -> stems r = s)
        /\ ((forall s, getProp (js "stems") body = VStr s -> s ∉ VALID_STEMS) ->
            stems r = js "2stems")
        /\ VStr <$> output_files r
           = List.filter isNonEmptyString (elementsOf (getProp (js "output_files") body))
        /\ (forall t, getProp (js "processing_time") body = VNum t ->
                      PrimFloat.leb 0 t = true -> processing_time r = t)
        /\ ((forall t, getProp (js "processing_time") body = VNum t ->
                       PrimFloat.leb 0 t = false) -> processing_time r = 0%float))
  /\ parseSeparateResponse roundTripBody
     = Ok {| success := true; message := []; job_id := js "job-1";
             stems := js "4stems";
             output_files := [js "vocals.wav"; js "drums.wav"];
             processing_time := 12.5%float |}.
Proof.
  split; [|vm_compute; reflexivity].
  intros body (Hobj & Hsucc & Hjob & Harr).
  unfold parseSeparateResponse, successIs, jobIdMissingOrBlank, outputFilesIsArray in *.
  rewrite Hobj; simpl.
  destruct (getProp (js "success") body) as [| |[|]| | | |]; try discriminate.
  destruct (getProp (js "job_id") body) as [| | | |j| |]; try discriminate.
  rewrite Hjob.
  destruct (getProp (js "output_files") body) as [| | | | |fs|]; try discriminate.
  eexists; split; [reflexivity|]; simpl.
  repeat split.
  - intros s Hs Hin. rewrite Hs. unfold arrayIncludes.
    now rewrite bool_decide_eq_true_2.
  - intros Hno. destruct (getProp (js "stems") body) as [| | | |s| |]; try reflexivity.
    unfold arrayIncludes. rewrite bool_decide_eq_false_2; [reflexivity|].
    now apply Hno.
  - apply filterNonEmptyStrings_filter.
  - intros t Ht Hge. now rewrite Ht, Hge.
  - intros Hno. destruct (getProp (js "processing_time") body) as [| | |t| | |];
      try reflexivity.
    now rewrite (Hno t eq_refl).
Qed.

Lemma parseSeparateResponse_fields_witness :
  acceptable roundTripBody
  /\ exists r, parseSeparateResponse roundTripBody = Ok r
       /\ message r = [] /\ stems r = js "4stems"
       /\ output_files r = [js "vocals.wav"; js "drums.wav"]
       /\ processing_time r = 12.5%float.
Proof.
  assert (Hacc : acceptable roundTripBody) by (repeat split; vm_compute; reflexivity).
  split; [exact Hacc|].
  destruct (proj1 parseSeparateResponse_fields roundTripBody Hacc) as (r & Hr & _).
  exists r. split; [exact Hr|].
  assert (Heq := proj2 parseSeparateResponse_fields).
  rewrite Hr in Heq. injection Heq as ->. repeat split.
Defined.

(* ===================================================================== *)
(** ** Strings                                                             *)
(* ===================================================================== *)

Lemma isEmpty_true (s : jsstring) : isEmpty s = true <-> s = [].
Proof. destruct s; simpl; split; congruence. Qed.

Lemma isEmpty_false (s : jsstring) : isEmpty s = false <-> s <> [].
Proof. destruct s; simpl; split; congruence. Qed.

Lemma existsb_isSeparator (s : jsstring) :
  existsb isSeparator s = true <-> SLASH ∈ s \/ BACKSLASH ∈ s.
Proof.
  induction s as [|c s IH]; simpl.
  - split; [discriminate|]. intros [H|H]; inversion H.
  - rewrite orb_true_iff, IH, !elem_of_cons. unfold isSeparator.
    rewrite orb_true_iff, !N.eqb_eq. intuition congruence.
Qed.

Lemma isSeparator_not_lineTerminator (c : codeunit) :
  isSeparator c = true -> isLineTerminator c = false.
Proof.
  unfold isSeparator, isLineTerminator, SLASH, BACKSLASH.
  rewrite orb_true_iff, !N.eqb_eq. intros [->| ->]; reflexivity.
Qed.

(** *** [dropWhileEnd] *)

Lemma dropWhileEnd_idem (p : codeunit -> bool) (s : jsstring) :
  dropWhileEnd p (dropWhileEnd p s) = dropWhileEnd p s.
Proof.
  induction s as [|c s IH]; simpl; [reflexivity|].
  destruct (p c) eqn:Hp; simpl.
  - destruct (dropWhileEnd p s) as [|d r] eqn:Hr; simpl; [reflexivity|].
    rewrite Hp. simpl. simpl in IH. rewrite IH. reflexivity.
  - rewrite Hp. simpl. rewrite IH. reflexivity.
Qed.

(** A non-empty result of [dropWhileEnd p] ends outside [p]. *)
Lemma dropWhileEnd_last (p : codeunit -> bool) (s : jsstring) (c : codeunit) :
  last (dropWhileEnd p s) = Some c -> p c = false.
Proof.
  induction s as [|d s IH]; simpl; [discriminate|].
  destruct (dropWhileEnd p s) as [|e r] eqn:Hr; simpl.
  - destruct (p d) eqn:Hp; simpl; [discriminate|]. intros [= <-]. exact Hp.
  - rewrite andb_false_r. simpl. exact IH.
Qed.

(** A text that already ends outside [p] is left alone. *)
Lemma dropWhileEnd_fixed (p : codeunit -> bool) (s : jsstring) :
  (forall c, last s = Some c -> p c = false) -> dropWhileEnd p s = s.
Proof.
  induction s as [|d s IH]; simpl; [reflexivity|].
  intros Hlast. destruct s as [|e r].
  - simpl. rewrite (Hlast d eq_refl). reflexivity.
  - rewrite IH by (intros c Hc; apply Hlast; exact Hc).
    rewrite andb_false_r. reflexivity.
Qed.

(** [dropWhileEnd] only removes from the end: the first code unit stays. *)
Lemma dropWhileEnd_head (p : codeunit -> bool) (s : jsstring) (c : codeunit) :
  head (dropWhileEnd p s) = Some c -> head s = Some c.
Proof.
  destruct s as [|d s]; simpl; [discriminate|].
  destruct (p d && isEmpty (dropWhileEnd p s)); simpl; [discriminate|trivial].
Qed.

Lemma dropWhile_head (p : codeunit -> bool) (s : jsstring) (c : codeunit) :
  head (dropWhile p s) = Some c -> p c = false.
Proof.
  induction s as [|d s IH]; simpl; [discriminate|].
  destruct (p d) eqn:Hp; [exact IH|]. simpl. intros [= <-]. exact Hp.
Qed.

Lemma dropWhile_fixed (p : codeunit -> bool) (s : jsstring) :
  (forall c, head s = Some c -> p c = false) -> dropWhile p s = s.
Proof.
  destruct s as [|d s]; simpl; [reflexivity|].
  intros Hhead. now rewrite (Hhead d eq_refl).
Qed.

(** *** [trim] *)

(** A trimmed text neither starts nor ends with white space. *)
Lemma trim_head (s : jsstring) (c : codeunit) :
  head (trim s) = Some c -> isWhiteSpace c = false.
Proof.
  unfold trim. intros Hc. apply dropWhileEnd_head in Hc.
  now apply dropWhile_head in Hc.
Qed.

Lemma trim_last (s : jsstring) (c : codeunit) :
  last (trim s) = Some c -> isWhiteSpace c = false.
Proof. unfold trim. apply dropWhileEnd_last. Qed.

(** A text with no white space at either end is its own trim. *)
Lemma trim_fixed (s : jsstring) :
  (forall c, head s = Some c -> isWhiteSpace c = false) ->
  (forall c, last s = Some c -> isWhiteSpace c = false) ->
  trim s = s.
Proof.
  intros Hh Hl. unfold trim. rewrite dropWhile_fixed by exact Hh.
  now apply dropWhileEnd_fixed.
Qed.

Lemma trim_idem (s : jsstring) : trim (trim s) = trim s.
Proof. apply trim_fixed; [apply trim_head | apply trim_last]. Qed.

(** *** The directory-prefix replacement *)

Lemma lastIndexWhere_takeWhile_None (p q : codeunit -> bool) (s : jsstring) :
  lastIndexWhere p s = None -> lastIndexWhere p (takeWhile q s) = None.
Proof.
  induction s as [|c s IH]; simpl; [reflexivity|].
  destruct (lastIndexWhere p s); [discriminate|].
  destruct (p c) eqn:Hp; [discriminate|]. intros _.
  destruct (q c); simpl; [|reflexivity].
  now rewrite IH, Hp.
Qed.

(** Where no line terminator precedes the last separator, the pattern
    [^.*[/\\]] reaches that separator. *)
Lemma replaceDirPrefix_afterLastSeparator (s : jsstring) :
  lineTerminatorBeforeLastSeparator s = false ->
  replaceDirPrefix s = afterLastSeparator s.
Proof.
  unfold replaceDirPrefix, afterLastSeparator, lineTerminatorBeforeLastSeparator.
  set (q := fun c => negb (isLineTerminator c)).
  assert (Hkey : forall t,
    match lastIndexWhere isSeparator t with
    | Some i => existsb isLineTerminator (take i t)
    | None => false
    end = false ->
    lastIndexWhere isSeparator (takeWhile q t) = lastIndexWhere isSeparator t).
  { induction t as [|c t IH]; simpl; [reflexivity|].
    destruct (lastIndexWhere isSeparator t) as [i|] eqn:Hl.
    - simpl. rewrite orb_false_iff. intros [Hc Ht].
      unfold q at 1. rewrite Hc. simpl. now rewrite IH.
    - intros _. destruct (isSeparator c) eqn:Hc.
      + unfold q at 1. rewrite (isSeparator_not_lineTerminator c Hc). simpl.
        now rewrite (lastIndexWhere_takeWhile_None _ q t Hl), Hc.
      + destruct (q c); simpl; [|reflexivity].
        now rewrite (lastIndexWhere_takeWhile_None _ q t Hl), Hc. }
  intros Hs. now rewrite (Hkey s Hs).
Qed.

(* ===================================================================== *)
(** ** Validation                                                          *)
(* ===================================================================== *)

Lemma assertValidJobId_unsafe (jobId : jsstring) :
  unsafeJobId jobId -> failsWith INVALID_ARGUMENT (assertValidJobId jobId).
Proof.
  unfold unsafeJobId, assertValidJobId, testPathSegment.
  intros Hbad. destruct (isEmpty (trim jobId)) eqn:He; [reflexivity|].
  apply isEmpty_false in He.
  destruct Hbad as [Hnil|[Hdots|Hsep]]; [contradiction| |].
  - change [DOT; DOT] with (js "..") . rewrite Hdots. reflexivity.
  - apply existsb_isSeparator in Hsep. rewrite Hsep, orb_true_r. reflexivity.
Qed.

(** C3. A job identifier that is blank after trimming, or whose trimmed
    form contains [..], [/] or [\], makes [getStemDownloadUrl] throw
    INVALID_ARGUMENT whatever the filename. *)
Theorem getStemDownloadUrl_rejects_unsafe_jobId
    (c : StemSeparatorClient) (jobId filename : jsstring) :
  unsafeJobId jobId ->
  failsWith INVALID_ARGUMENT (getStemDownloadUrl c jobId filename).
Proof.
  intros Hbad. apply assertValidJobId_unsafe in Hbad.
  unfold getStemDownloadUrl.
  destruct (assertValidJobId jobId) as [[]|e]; [contradiction|exact Hbad].
Qed.

Lemma getStemDownloadUrl_rejects_unsafe_jobId_witness :
  unsafeJobId (js "../job")
  /\ failsWith INVALID_ARGUMENT
       (getStemDownloadUrl exampleClient (js "../job") (js "vocals.wav")).
Proof.
  assert (Hbad : unsafeJobId (js "../job")) by (right; left; reflexivity).
  split; [exact Hbad|].
  exact (getStemDownloadUrl_rejects_unsafe_jobId exampleClient _ (js "vocals.wav") Hbad).
Defined.

(** C4, as the code has it.  A filename containing [..] is refused with
    INVALID_ARGUMENT.  Otherwise, when no line terminator precedes its last
    [/] or [\], the text after that separator is trimmed of surrounding
    white space; an empty trimmed basename is refused with INVALID_ARGUMENT
    and any other is returned.  ["a/b/c.wav"] becomes ["c.wav"]. *)
Theorem sanitizeFilename_trimmed_basename :
  (forall filename : jsstring,
      includes (js "..") filename = true ->
      failsWith INVALID_ARGUMENT (sanitizeFilename filename))
  /\ (forall filename : jsstring,
      includes (js "..") filename = false ->
      lineTerminatorBeforeLastSeparator filename = false ->
      (trim (afterLastSeparator filename) = [] ->
       failsWith INVALID_ARGUMENT (sanitizeFilename filename))
      /\ (trim (afterLastSeparator filename) <> [] ->
          sanitizeFilename filename = Ok (trim (afterLastSeparator filename))))
  /\ sanitizeFilename (js "a/b/c.wav") = Ok (js "c.wav").
Proof.
  split; [|split; [|vm_compute; reflexivity]].
  - intros filename Hdots. unfold sanitizeFilename. now rewrite Hdots.
  - intros filename Hdots Hline. unfold sanitizeFilename. rewrite Hdots.
    rewrite (replaceDirPrefix_afterLastSeparator filename Hline).
    split.
    + intros ->. reflexivity.
    + intros Hne. apply isEmpty_false in Hne. now rewrite Hne.
Qed.

Lemma sanitizeFilename_trimmed_basename_witness :
  failsWith INVALID_ARGUMENT (sanitizeFilename (js "../vocals.wav"))
  /\ sanitizeFilename (js "stems\ vocals.wav ") = Ok (js "vocals.wav")
  /\ failsWith INVALID_ARGUMENT (sanitizeFilename (js "a/b/")).
Proof.
  destruct sanitizeFilename_trimmed_basename as (Hdots & Hbase & _).
  split; [apply Hdots; reflexivity|].
  split.
  - apply (Hbase (js "stems\ vocals.wav ")); [reflexivity|reflexivity|].
    vm_compute. discriminate.
  - apply (Hbase (js "a/b/")); reflexivity.
Defined.

(** The basename is trimmed: the text after the last separator of
    ["dir/ c.wav"] is [" c.wav"], and what comes back is ["c.wav"]; that of
    ["dir/ "] is [" "], not empty, and the filename is refused. *)
Lemma sanitizeFilename_not_plain_basename :
  includes (js "..") (js "dir/ c.wav") = false
  /\ afterLastSeparator (js "dir/ c.wav") = js " c.wav"
  /\ sanitizeFilename (js "dir/ c.wav") = Ok (js "c.wav")
  /\ sanitizeFilename (js "dir/ c.wav") <> Ok (afterLastSeparator (js "dir/ c.wav"))
  /\ afterLastSeparator (js "dir/ ") = js " "
  /\ failsWith INVALID_ARGUMENT (sanitizeFilename (js "dir/ ")).
Proof. repeat split; vm_compute; congruence. Qed.

(** C6, as the code has it.  When [normalizeBaseUrl] succeeds with a
    non-empty result that does not end in white space, normalizing that
    result succeeds and changes nothing. *)
Theorem normalizeBaseUrl_idempotent (url r : jsstring) :
  normalizeBaseUrl url = Ok r ->
  r <> [] ->
  endsWithWhiteSpace r = false ->
  normalizeBaseUrl r = Ok r.
Proof.
  unfold normalizeBaseUrl, replaceTrailingSlashes, endsWithWhiteSpace.
  destruct (isEmpty (trim url)); [discriminate|].
  intros [= <-] Hne Hend.
  set (r := dropWhileEnd isSlash (trim url)) in *.
  assert (Htrim : trim r = r).
  { apply trim_fixed.
    - intros c Hc. apply dropWhileEnd_head in Hc. now apply trim_head in Hc.
    - intros c Hc. now rewrite Hc in Hend. }
  rewrite Htrim. apply isEmpty_false in Hne. rewrite Hne.
  unfold r. now rewrite dropWhileEnd_idem.
Qed.

Lemma normalizeBaseUrl_idempotent_witness :
  normalizeBaseUrl (js "https://x///") = Ok (js "https://x")
  /\ normalizeBaseUrl (js "https://x") = Ok (js "https://x").
Proof.
  assert (H1 : normalizeBaseUrl (js "https://x///") = Ok (js "https://x"))
    by reflexivity.
  split; [exact H1|].
  apply (normalizeBaseUrl_idempotent (js "https://x///") (js "https://x") H1).
  - discriminate.
  - reflexivity.
Defined.

(** White space in front of the trailing slashes survives the first pass
    and is trimmed by the second: ["x /"] gives ["x "], which gives ["x"]. *)
Lemma normalizeBaseUrl_not_idempotent :
  normalizeBaseUrl (js "x /") = Ok (js "x ")
  /\ normalizeBaseUrl (js "x ") = Ok (js "x")
  /\ normalizeBaseUrl (js "x ") <> Ok (js "x ").
Proof. repeat split; vm_compute; congruence. Qed.

(* ===================================================================== *)
(** ** Download URL                                                        *)
(* ===================================================================== *)






(* ===================================================================== *)
(** ** Error mapping                                                       *)
(* ===================================================================== *)





(* ===================================================================== *)
(** ** The client                                                          *)
(* ===================================================================== *)

Lemma assertValidFileInput_missing (file : SeparateInput) :
  missingOrBlankFile file ->
  exists e, assertValidFileInput file = Err e /\ errorCode e = Some INVALID_ARGUMENT.
Proof.
  intros [->|[->|(p & -> & Hp)]]; simpl; try (eexists; split; reflexivity).
  rewrite Hp. eexists; split; reflexivity.
Qed.

Lemma sanitizeFilename_error (filename : jsstring) (e : thrown) :
  sanitizeFilename filename = Err e -> errorCode e = Some INVALID_ARGUMENT.
Proof.
  unfold sanitizeFilename.
  destruct (includes (js "..") filename); [now intros [= <-]|].
  destruct (isEmpty (trim (replaceDirPrefix filename))); [now intros [= <-]|discriminate].
Qed.

Section Client.
Context `{Host}.

(** C5. When the file is [null], [undefined], or a path that is blank after
    trimming, [separate] rejects with INVALID_ARGUMENT and has issued no
    transport request. *)
Theorem separate_rejects_missing_file
    (c : StemSeparatorClient) (file : SeparateInput) (options : SeparateOptions) :
  missingOrBlankFile file ->
  rejectsWith INVALID_ARGUMENT (separate c file options)
  /\ noTransportCall (separate c file options).
Proof.
  intros Hfile. destruct (assertValidFileInput_missing file Hfile) as (e & He & Hcode).
  unfold separate. rewrite He. split; [exact Hcode|reflexivity].
Qed.

(** [createForm] returns exactly when the host can attach the file, and
    then with the one part [partOf] describes; what it throws otherwise is
    an error of the host. *)
Lemma createForm_outcome (file : SeparateInput) (name : jsstring) :
  match createForm file name with
  | Ok (form, formHeaders) =>
      attachable file name = true
      /\ form = {| form_impl := if has_FormData then NativeFormData else FormDataPackage;
                   form_parts := [partOf file name] |}
      /\ (has_FormData = true -> formHeaders = ∅)
  | Err e =>
      attachable file name = false
      /\ errorCode e = None
      /\ (has_FormData = true -> e = if has_File then notBlob else fileNotDefined)
  end.
Proof.
  unfold createForm, attachable, appendFile, partOf, attachedAs, streamName.
  destruct has_FormData, has_File; simpl.
  - destruct file; simpl; repeat split; reflexivity.
  - repeat split; reflexivity.
  - destruct file; simpl;
      match goal with
      | |- context [package_append ?part] =>
          destruct (package_append part) eqn:Happend; simpl
      end;
      repeat split; try reflexivity; try discriminate;
      try (apply bool_decide_eq_true_2; reflexivity);
      try (apply bool_decide_eq_false_2; discriminate).
  - destruct file; simpl;
      match goal with
      | |- context [package_append ?part] =>
          destruct (package_append part) eqn:Happend; simpl
      end;
      repeat split; try reflexivity; try discriminate;
      try (apply bool_decide_eq_true_2; reflexivity);
      try (apply bool_decide_eq_false_2; discriminate).
Qed.

(** Past validation, [separate] throws what [createForm] throws, and issues
    its request otherwise. *)
Lemma separate_createForm
    (c : StemSeparatorClient) (file : SeparateInput) (options : SeparateOptions)
    (name : jsstring) :
  assertValidFileInput file = Ok tt ->
  separateFilename options = Ok name ->
  match createForm file name with
  | Err e => separate c file options = Throw e
  | Ok (form, formHeaders) =>
      firstRequest (separate c file options)
      = Some {| req_method := POST;
                req_url := baseUrl c ++ API_PATH_SEPARATE
                             ++ buildSeparateQueryString options;
                req_headers := formHeaders ∪ getAuthHeaders (apiKey c);
                req_body := Some form; req_timeout := timeout c |}
  end.
Proof.
  intros Hfile Hname. unfold separate. rewrite Hfile, Hname.
  destruct (createForm file name) as [[form formHeaders]|e]; [|reflexivity].
  now destruct has_fetch.
Qed.

(** Past validation, and on a host that can attach the file, [separate]
    issues one request whose multipart part is the one [createForm] built
    for the resolved filename. *)
Lemma separate_multipartFilename
    (c : StemSeparatorClient) (file : SeparateInput) (options : SeparateOptions)
    (name : jsstring) :
  assertValidFileInput file = Ok tt ->
  separateFilename options = Ok name ->
  attachable file name = true ->
  multipartFilename (separate c file options) = Some (attachedAs file name).
Proof.
  intros Hfile Hname Hattach.
  pose proof (separate_createForm c file options name Hfile Hname) as Hsep.
  pose proof (createForm_outcome file name) as Hform.
  destruct (createForm file name) as [[form formHeaders]|e].
  - destruct Hform as (_ & -> & _). unfold multipartFilename. now rewrite Hsep.
  - destruct Hform as (Hno & _). congruence.
Qed.

(** Past validation, and on a host that cannot attach the file, [separate]
    throws an error of the host before any request. *)
Lemma separate_not_attachable
    (c : StemSeparatorClient) (file : SeparateInput) (options : SeparateOptions)
    (name : jsstring) :
  assertValidFileInput file = Ok tt ->
  separateFilename options = Ok name ->
  attachable file name = false ->
  exists e, separate c file options = Throw e /\ errorCode e = None
    /\ (has_FormData = true -> e = if has_File then notBlob else fileNotDefined).
Proof.
  intros Hfile Hname Hattach.
  pose proof (separate_createForm c file options name Hfile Hname) as Hsep.
  pose proof (createForm_outcome file name) as Hform.
  destruct (createForm file name) as [[form formHeaders]|e].
  - destruct Hform as (Hyes & _). congruence.
  - exists e. split; [exact Hsep|]. split; apply Hform.
Qed.

Lemma separateFilename_blank (options : SeparateOptions) :
  blankFilenameOption options -> separateFilename options = Ok DEFAULT_FILENAME.
Proof.
  unfold separateFilename. intros [->|(f & -> & Hf)]; [reflexivity|].
  now rewrite Hf.
Qed.

Lemma separateFilename_given (options : SeparateOptions) (f : jsstring) :
  opt_filename options = Some f -> trim f <> [] ->
  separateFilename options = sanitizeFilename (trim f).
Proof.
  unfold separateFilename. intros -> Hf. apply isEmpty_false in Hf.
  now rewrite Hf.
Qed.

(** C10, as the code has it.  For a file that passes validation: when the
    [filename] option is absent or blank after trimming, nothing is
    sanitized and [separate] does not reject with INVALID_ARGUMENT; on a
    host that can attach the file, the request goes out with the file
    attached as ["audio"], except that a path input is attached under its
    own basename when that is not empty.  A non-blank option is trimmed and
    sanitized: either [separate] rejects with the sanitizer's
    INVALID_ARGUMENT before any request, or the sanitized name takes the
    place of ["audio"]. *)
Theorem separate_filename_fallback
    (c : StemSeparatorClient) (file : SeparateInput) (options : SeparateOptions) :
  assertValidFileInput file = Ok tt ->
  (blankFilenameOption options ->
   ~ rejectsWith INVALID_ARGUMENT (separate c file options)
   /\ (attachable file DEFAULT_FILENAME = true ->
       multipartFilename (separate c file options)
       = Some (attachedAs file DEFAULT_FILENAME)))
  /\ (forall f, opt_filename options = Some f -> trim f <> [] ->
      match sanitizeFilename (trim f) with
      | Err e => separate c file options = Throw e
                 /\ errorCode e = Some INVALID_ARGUMENT
      | Ok name => attachable file name = true ->
                   multipartFilename (separate c file options)
                   = Some (attachedAs file name)
      end).
Proof.
  intros Hfile. split.
  - intros Hblank. apply separateFilename_blank in Hblank. split.
    + destruct (attachable file DEFAULT_FILENAME) eqn:Hattach.
      * pose proof (separate_multipartFilename c file options _ Hfile Hblank Hattach)
          as Hpart.
        unfold multipartFilename in Hpart.
        destruct (separate c file options); simpl in *; try discriminate; tauto.
      * destruct (separate_not_attachable c file options _ Hfile Hblank Hattach)
          as (e & -> & Hcode & _).
        simpl. congruence.
    + now apply separate_multipartFilename.
  - intros f Hf Hne. pose proof (separateFilename_given options f Hf Hne) as Hname.
    destruct (sanitizeFilename (trim f)) as [name|e] eqn:Hs.
    + now apply separate_multipartFilename.
    + split; [|exact (sanitizeFilename_error _ _ Hs)].
      unfold separate. now rewrite Hfile, Hname.
Qed.

(** Every operation addresses the host under the stored base URL. *)
Lemma separate_urls (c : StemSeparatorClient) (file : SeparateInput)
    (options : SeparateOptions) :
  everyRequestUrl (fun url => baseUrl c `prefix_of` url) (separate c file options).
Proof.
  unfold separate.
  destruct (assertValidFileInput file); [|exact I].
  destruct (separateFilename options) as [filename|]; [|exact I].
  destruct (createForm file filename) as [[form formHeaders]|]; [|exact I].
  destruct has_fetch; simpl; (split; [now eexists|]).
  - intros o. destruct (fetchWithTimeout o (timeout c)) as [res|]; [|exact I].
    destruct (res_json res) as [body|]; [|destruct (res_text res); exact I].
    destruct (res_ok res); simpl; [|now destruct (detailOr body _)].
    destruct (parseSeparateResponse body); exact I.
  - intros [data|err]; [|exact I].
    destruct (parseSeparateResponse data); exact I.
Qed.

Lemma getStemDownloadUrl_prefix (c : StemSeparatorClient)
    (jobId filename url : jsstring) :
  getStemDownloadUrl c jobId filename = Ok url -> baseUrl c `prefix_of` url.
Proof.
  unfold getStemDownloadUrl.
  destruct (assertValidJobId jobId); [|discriminate].
  destruct (sanitizeFilename filename) as [safeName|]; [|discriminate]. simpl.
  destruct (encodeURIComponent jobId); [|discriminate].
  destruct (encodeURIComponent safeName); [|discriminate].
  intros [= <-]. now eexists.
Qed.

Lemma downloadStem_urls (c : StemSeparatorClient) (jobId filename : jsstring) :
  everyRequestUrl (fun url => baseUrl c `prefix_of` url) (downloadStem c jobId filename).
Proof.
  unfold downloadStem.
  destruct (assertValidJobId jobId); [|exact I].
  destruct (sanitizeFilename filename); [|exact I].
  destruct (getStemDownloadUrl c jobId filename) as [url|] eqn:Hurl; [|exact I].
  apply getStemDownloadUrl_prefix in Hurl.
  destruct has_fetch; simpl; (split; [exact Hurl|]).
  - intros o. destruct (fetchWithTimeout o (timeout c)) as [res|]; [|exact I].
    destruct (res_ok res); simpl; [destruct (res_arrayBuffer res); exact I|].
    destruct (res_text res); exact I.
  - intros [data|err]; exact I.
Qed.

Lemma checkHealth_urls (c : StemSeparatorClient) :
  everyRequestUrl (fun url => baseUrl c `prefix_of` url) (checkHealth c).
Proof.
  unfold checkHealth.
  destruct has_fetch; simpl; (split; [now eexists|]).
  - intros o. destruct (fetchWithTimeout o HEALTH_TIMEOUT_MS) as [res|]; [|exact I].
    destruct (res_ok res); simpl; [destruct (res_json res); exact I|exact I].
  - intros [data|err]; exact I.
Qed.

End Client.

Lemma separate_rejects_missing_file_witness :
  missingOrBlankFile (InPath (js "   "))
  /\ rejectsWith INVALID_ARGUMENT
       (separate (H := node18) exampleClient (InPath (js "   ")) noOptions)
  /\ noTransportCall
       (separate (H := node18) exampleClient (InPath (js "   ")) noOptions).
Proof.
  assert (Hblank : missingOrBlankFile (InPath (js "   "))).
  { right; right. exists (js "   "). split; reflexivity. }
  split; [exact Hblank|].
  exact (separate_rejects_missing_file (H := node18) exampleClient _ noOptions Hblank).
Defined.

Lemma separate_filename_fallback_witness :
  multipartFilename
    (separate (H := node16) exampleClient (InBuffer [0x52; 0x49; 0x46; 0x46])
       {| opt_filename := Some (js "  "); opt_stems := None;
          opt_bitrate := None; opt_format := None |})
  = Some (js "audio")
  /\ rejectsWith INVALID_ARGUMENT
       (separate (H := node16) exampleClient (InBuffer [0x52; 0x49; 0x46; 0x46])
          {| opt_filename := Some (js " ../song.mp3 "); opt_stems := None;
             opt_bitrate := None; opt_format := None |})
  /\ multipartFilename
       (separate (H := node16) exampleClient (InBuffer [0x52; 0x49; 0x46; 0x46])
          {| opt_filename := Some (js " mixes/song.mp3 "); opt_stems := None;
             opt_bitrate := None; opt_format := None |})
     = Some (js "song.mp3").
Proof.
  split; [|split].
  - apply (proj1 (separate_filename_fallback (H := node16) exampleClient
                    (InBuffer [0x52; 0x49; 0x46; 0x46]) _ eq_refl));
      [|reflexivity].
    right. exists (js "  "). split; reflexivity.
  - pose proof (proj2 (separate_filename_fallback (H := node16) exampleClient
                  (InBuffer [0x52; 0x49; 0x46; 0x46])
                  {| opt_filename := Some (js " ../song.mp3 "); opt_stems := None;
                     opt_bitrate := None; opt_format := None |} eq_refl)
                  (js " ../song.mp3 ") eq_refl ltac:(discriminate)) as Hcase.
    simpl in Hcase. destruct Hcase as [-> Hcode]. exact Hcode.
  - exact (proj2 (separate_filename_fallback (H := node16) exampleClient
                    (InBuffer [0x52; 0x49; 0x46; 0x46])
                    {| opt_filename := Some (js " mixes/song.mp3 "); opt_stems := None;
                       opt_bitrate := None; opt_format := None |} eq_refl)
             (js " mixes/song.mp3 ") eq_refl ltac:(discriminate) eq_refl).
Defined.

(** With no [filename] option, a path input is not attached as ["audio"]:
    under Node 16, where the [form-data] package builds the form, the part
    for ["/tmp/song.mp3"] is named ["song.mp3"]. *)
Lemma separate_path_not_attached_as_audio :
  blankFilenameOption noOptions
  /\ multipartFilename
       (separate (H := node16) exampleClient (InPath (js "/tmp/song.mp3")) noOptions)
     = Some (js "song.mp3")
  /\ Some (js "song.mp3") <> Some DEFAULT_FILENAME.
Proof. split; [left; reflexivity|]. split; [vm_compute; reflexivity|discriminate]. Qed.

(** C7 at the input that breaks it: [new StemSeparatorClient({ baseUrl: '/' })]
    succeeds, and the stored base URL is the empty string. *)
Theorem newStemSeparatorClient_slash :
  newStemSeparatorClient
    {| o_baseUrl := Some (js "/"); o_apiKey := None; o_timeout := None |}
  = Ok {| baseUrl := []; apiKey := []; timeout := DEFAULT_TIMEOUT_MS |}.
Proof. reflexivity. Qed.

(** What does hold of every constructed client: the stored base URL does not
    end with a slash. *)
Lemma newStemSeparatorClient_no_trailing_slash
    (options : StemSeparatorClientOptions) (c : StemSeparatorClient) :
  newStemSeparatorClient options = Ok c -> last (baseUrl c) <> Some SLASH.
Proof.
  unfold newStemSeparatorClient, normalizeBaseUrl, replaceTrailingSlashes.
  set (given := match o_baseUrl options with
                | Some b => trim b
                | None => DEFAULT_BASE_URL
                end).
  destruct (isEmpty (trim given)); [discriminate|]. simpl.
  destruct (PrimFloat.ltb _ _); [discriminate|].
  intros [= <-]. simpl. intros Hlast.
  apply dropWhileEnd_last in Hlast. discriminate.
Qed.

(* ===================================================================== *)
(** ** The scenarios of the specification, evaluated                       *)
(* ===================================================================== *)

Example NumberToString_samples :
  NumberToString 404%float = js "404"
  /\ NumberToString 300000%float = js "300000"
  /\ NumberToString 12.5%float = js "12.5"
  /\ NumberToString 1e21%float = js "1e+21"
  /\ NumberToString (0 / 0)%float = js "NaN".
Proof. repeat split; vm_compute; reflexivity. Qed.

(** Defaulting: omitted [stems], [message] and [processing_time]. *)
Example parseSeparateResponse_defaults :
  parseSeparateResponse
    (obj [(js "success", VBool true); (js "job_id", VStr (js "job-1"));
          (js "output_files", VArr [])])
  = Ok {| success := true; message := []; job_id := js "job-1";
          stems := js "2stems"; output_files := []; processing_time := 0%float |}.
Proof. vm_compute. reflexivity. Qed.

(** Malformed entries of [output_files] are dropped, the others kept. *)
Example parseSeparateResponse_drops_malformed_files :
  output_files <$>
    parseSeparateResponse
      (obj [(js "success", VBool true); (js "job_id", VStr (js "job-1"));
            (js "output_files",
             VArr [VStr (js "vocals.wav"); VNull; VStr []; VNum 3%float;
                   VStr (js "bass.wav")])])
  = Ok [js "vocals.wav"; js "bass.wav"].
Proof. vm_compute. reflexivity. Qed.

(** Explicit failure. *)
Example parseSeparateResponse_explicit_failure :
  parseSeparateResponse badAudioBody
  = Err (StemSeparatorError (js "bad audio") API_ERROR (Some 400%float) None).
Proof. vm_compute. reflexivity. Qed.

(** Malformed success: an empty job identifier. *)
Example parseSeparateResponse_empty_job_id :
  parseSeparateResponse
    (obj [(js "success", VBool true); (js "job_id", VStr []);
          (js "output_files", VArr [])])
  = Err (stemError "API response missing valid job_id" INVALID_RESPONSE).
Proof. vm_compute. reflexivity. Qed.

(** A client built with no options addresses the public deployment. *)
Example default_client_download_url :
  (c ← newStemSeparatorClient
         {| o_baseUrl := None; o_apiKey := None; o_timeout := None |};
   getStemDownloadUrl c (js "job-1") (js "vocals.wav"))
  = Ok (DEFAULT_BASE_URL ++ js "/api/v1/separate/job-1/download/vocals.wav").
Proof. vm_compute. reflexivity. Qed.

(** Trailing slashes of the base URL are stripped. *)
Example constructor_strips_trailing_slashes :
  baseUrl <$> newStemSeparatorClient
                {| o_baseUrl := Some (js "https://api.example.com///");
                   o_apiKey := None; o_timeout := None |}
  = Ok (js "https://api.example.com").
Proof. vm_compute. reflexivity. Qed.

(** A timeout below one millisecond is refused. *)
Example constructor_rejects_timeout :
  newStemSeparatorClient
    {| o_baseUrl := Some (js "https://api.example.com"); o_apiKey := None;
       o_timeout := Some 0%float |}
  = Err (stemError "timeout must be a positive number" INVALID_ARGUMENT).
Proof. vm_compute. reflexivity. Qed.

(** The generic message of a response without [detail]. *)
Example throwAxiosError_generic_message :
  throwAxiosError
    (ForeignError (Some {| response_status := Some 404%float;
                           response_data := VStr (js "Not Found") |})
       (Some (js "Request failed with status code 404")))
    (js "Request timed out after 300000ms") (js "Request failed")
  = StemSeparatorError (js "API error: 404") API_ERROR (Some 404%float)
      (Some (ForeignError (Some {| response_status := Some 404%float;
                                   response_data := VStr (js "Not Found") |})
               (Some (js "Request failed with status code 404")))).
Proof. vm_compute. reflexivity. Qed.

(** Without a response, the word ["timeout"] in the message decides. *)
Example throwAxiosError_timeout_and_network :
  errorCode (throwAxiosError (ForeignError None (Some (js "timeout of 300000ms exceeded")))
               (js "Request timed out after 300000ms") (js "Request failed"))
  = Some TIMEOUT
  /\ throwAxiosError (ForeignError None (Some (js "connect ECONNREFUSED")))
       (js "Request timed out after 300000ms") (js "Request failed")
     = StemSeparatorError (js "connect ECONNREFUSED") NETWORK_ERROR None
         (Some (ForeignError None (Some (js "connect ECONNREFUSED"))))
  /\ errorMessage (throwAxiosError Nullish
                     (js "Request timed out after 300000ms") (js "Request failed"))
     = Some (js "Request failed").
Proof. repeat split. Qed.

(** A [detail] with a [toString] entry of its own cannot be converted: the
    mapper throws the [TypeError] of [String(detail)], which is no
    [StemSeparatorError]. *)
Example throwAxiosError_detail_not_printable :
  throwAxiosError unprintable (js "Request timed out after 300000ms") (js "Request failed")
  = notPrimitive
  /\ errorCode notPrimitive = None.
Proof. split; vm_compute; reflexivity. Qed.

(** [String] of the values a [detail] can be. *)
Example ToString_samples :
  ToString (VArr [VNum 1%float; VNull; VArr [VStr (js "a"); VBool true]; obj []])
  = Some (js "1,,a,true,[object Object]")
  /\ ToString (obj [(js "valueOf", VNum 1%float)]) = Some (js "[object Object]")
  /\ ToString (obj [(js "toString", VNull)]) = None
  /\ ToString (VArr [VStr (js "a"); obj [(js "toString", VNum 1%float)]]) = None.
Proof. repeat split; vm_compute; reflexivity. Qed.

(** With a global [FormData], a [Buffer], a path or a stream is refused by
    [append]; where [File] is not defined, nothing gets as far as that. *)
Example separate_native_form :
  separate (H := node20) exampleClient (InBuffer [0x52; 0x49; 0x46; 0x46]) noOptions
  = Throw notBlob
  /\ separate (H := node20) exampleClient (InPath (js "/tmp/song.mp3")) noOptions
     = Throw notBlob
  /\ multipartFilename
       (separate (H := node20) exampleClient (InBlob [0x52; 0x49; 0x46; 0x46]) noOptions)
     = Some (js "audio")
  /\ separate (H := node18) exampleClient (InBlob [0x52; 0x49; 0x46; 0x46]) noOptions
     = Throw fileNotDefined.
Proof. repeat split; vm_compute; reflexivity. Qed.

(** Under [fetch], an aborted request surfaces as TIMEOUT. *)
Example separate_fetch_timeout :
  afterFetch
    (separate (H := node20) exampleClient (InBlob [0x52; 0x49; 0x46; 0x46]) noOptions)
    (FetchRejectedError (js "AbortError") (js "This operation was aborted"))
  = Some (Throw (StemSeparatorError (js "Request timed out after 300000ms") TIMEOUT None
                   (Some (ForeignError None (Some (js "This operation was aborted")))))).
Proof. vm_compute. reflexivity. Qed.

(** Under axios the parser runs inside the [try] block, so what it throws
    goes through [throwAxiosError] as well: the explicit failure of the API
    leaves [separate] as a NETWORK_ERROR carrying the parser's message. *)
Example separate_axios_wraps_parser_error :
  afterAxiosJson
    (separate (H := node16) exampleClient (InBuffer [0x52; 0x49; 0x46; 0x46]) noOptions)
    (AxiosResolved badAudioBody)
  = Some (Throw (StemSeparatorError (js "bad audio") NETWORK_ERROR None
                   (Some (StemSeparatorError (js "bad audio") API_ERROR
                            (Some 400%float) None)))).
Proof. vm_compute. reflexivity. Qed.

(** The request [separate] builds: URL, query string and bearer token. *)
Example separate_request :
  (fun req => (req_method req, req_url req, req_headers req !! js "Authorization"))
    <$> firstRequest
          (separate (H := node16)
             {| baseUrl := js "https://api.example.com"; apiKey := js " key ";
                timeout := DEFAULT_TIMEOUT_MS |}
             (InPath (js "/tmp/song.mp3"))
             {| opt_filename := None; opt_stems := Some (js "4stems");
                opt_bitrate := Some (js " 320k "); opt_format := Some (js "mp4") |})
  = Some (POST, js "https://api.example.com/api/v1/separate?stems=4stems&bitrate=320k",
          Some (js "Bearer key")).
Proof. vm_compute. reflexivity. Qed.

(** A line terminator ahead of the last separator stops the pattern
    [^.*[/\\]] short: the separator stays in what [sanitizeFilename]
    returns. *)
Example sanitizeFilename_line_terminator :
  sanitizeFilename (js "a" ++ [0x0A] ++ js "b/c.wav")
  = Ok (js "a" ++ [0x0A] ++ js "b/c.wav").
Proof. vm_compute. reflexivity. Qed.

(** The base URL ["/"] is accepted and normalized to the empty string,
    which [normalizeBaseUrl] itself refuses. *)
Example normalizeBaseUrl_slash :
  normalizeBaseUrl (js "/") = Ok []
  /\ normalizeBaseUrl [] = Err (stemError "baseUrl is required" INVALID_ARGUMENT).
Proof. repeat split. Qed.

(* ===================================================================== *)
(** ** More about strings                                                  *)
(* ===================================================================== *)

(** What [dropWhileEnd] removes is a suffix made of [p] only. *)
Lemma dropWhileEnd_split (p : codeunit -> bool) (s : jsstring) :
  exists k, s = dropWhileEnd p s ++ k /\ forallb p k = true.
Proof.
  induction s as [|c s (k & Hs & Hk)]; simpl; [now exists []|].
  destruct (p c) eqn:Hp; simpl.
  - destruct (dropWhileEnd p s) as [|d r] eqn:Hr; simpl.
    + exists (c :: k). simpl in Hs. subst s. simpl. now rewrite Hp, Hk.
    + exists k. split; [|exact Hk]. simpl in Hs. now rewrite Hs at 1.
  - exists k. split; [|exact Hk]. now rewrite Hs at 1.
Qed.

(** What [dropWhile] removes is a prefix. *)
Lemma dropWhile_split (p : codeunit -> bool) (s : jsstring) :
  exists k, s = k ++ dropWhile p s.
Proof.
  induction s as [|c s (k & Hs)]; simpl; [now exists []|].
  destruct (p c); [|now exists []].
  exists (c :: k). simpl. now rewrite Hs at 1.
Qed.

(** A trimmed text sits inside the text it was trimmed from. *)
Lemma trim_split (s : jsstring) : exists k1 k2, s = k1 ++ trim s ++ k2.
Proof.
  unfold trim. destruct (dropWhile_split isWhiteSpace s) as (k1 & H1).
  destruct (dropWhileEnd_split isWhiteSpace (dropWhile isWhiteSpace s)) as (k2 & H2 & _).
  exists k1, k2. now rewrite <- H2.
Qed.

Lemma startsWith_app (p s k : jsstring) :
  startsWith p s = true -> startsWith p (s ++ k) = true.
Proof.
  revert s. induction p as [|a p IH]; intros [|b s]; simpl; try easy.
  rewrite !andb_true_iff. intros [Hab Hp]. auto.
Qed.

Lemma includes_app_l (p s k : jsstring) :
  includes p s = true -> includes p (s ++ k) = true.
Proof.
  induction s as [|b s IH]; simpl.
  - rewrite orb_false_r. destruct p; [|discriminate]. intros _.
    now destruct k.
  - rewrite !orb_true_iff. intros [Hp|Hi].
    + left. exact (startsWith_app p (b :: s) k Hp).
    + right. auto.
Qed.

Lemma includes_app_r (p s k : jsstring) :
  includes p s = true -> includes p (k ++ s) = true.
Proof.
  intros Hs. induction k as [|b k IH]; [exact Hs|].
  simpl. rewrite IH. apply orb_true_r.
Qed.

(** No text occurs in a part that does not occur in the whole. *)
Lemma includes_inside (p s k1 k2 : jsstring) :
  includes p (k1 ++ s ++ k2) = false -> includes p s = false.
Proof.
  intros Hno. destruct (includes p s) eqn:Hs; [|reflexivity].
  rewrite (includes_app_r _ _ k1 (includes_app_l _ _ k2 Hs)) in Hno. discriminate.
Qed.

Lemma existsb_inside (q : codeunit -> bool) (s k1 k2 : jsstring) :
  existsb q (k1 ++ s ++ k2) = false -> existsb q s = false.
Proof.
  rewrite !existsb_app, !orb_false_iff. tauto.
Qed.

Lemma replaceDirPrefix_split (s : jsstring) :
  exists k, s = k ++ replaceDirPrefix s.
Proof.
  unfold replaceDirPrefix.
  destruct (lastIndexWhere isSeparator _) as [i|].
  - exists (take (S i) s). now rewrite take_drop.
  - now exists [].
Qed.

(** Nothing after the last [p] satisfies [p]. *)
Lemma lastIndexWhere_rest (p : codeunit -> bool) (s : jsstring) :
  match lastIndexWhere p s with
  | Some i => existsb p (drop (S i) s) = false
  | None => existsb p s = false
  end.
Proof.
  induction s as [|c s IH]; simpl; [reflexivity|].
  destruct (lastIndexWhere p s) as [i|]; [exact IH|].
  destruct (p c); simpl; [exact IH|exact IH].
Qed.

Lemma lastIndexWhere_None (p : codeunit -> bool) (s : jsstring) :
  existsb p s = false -> lastIndexWhere p s = None.
Proof.
  induction s as [|c s IH]; simpl; [reflexivity|].
  rewrite orb_false_iff. intros [Hc Hs]. now rewrite (IH Hs), Hc.
Qed.

(* ===================================================================== *)
(** ** Base URL and constructor                                            *)
(* ===================================================================== *)

Lemma forallb_isSlash (k : jsstring) :
  forallb isSlash k = true -> k = replicate (length k) SLASH.
Proof.
  induction k as [|c k IH]; simpl; [reflexivity|].
  rewrite andb_true_iff. intros [Hc Hk]. apply N.eqb_eq in Hc.
  now rewrite Hc, <- IH.
Qed.

(** X1. [normalizeBaseUrl] refuses a URL, with INVALID_ARGUMENT, exactly when
    it is blank after trimming.  Otherwise what it returns differs from the
    trimmed URL by a run of trailing slashes only, and does not end with a
    slash. *)
Theorem normalizeBaseUrl_strips_only_slashes (url : jsstring) :
  (failsWith INVALID_ARGUMENT (normalizeBaseUrl url) <-> trim url = [])
  /\ (trim url <> [] ->
      exists r n, normalizeBaseUrl url = Ok r
        /\ trim url = r ++ replicate n SLASH
        /\ last r <> Some SLASH).
Proof.
  unfold normalizeBaseUrl, replaceTrailingSlashes. split.
  - destruct (isEmpty (trim url)) eqn:He.
    + apply isEmpty_true in He. now split.
    + apply isEmpty_false in He. split; [intros []|contradiction].
  - intros Hne. apply isEmpty_false in Hne. rewrite Hne.
    destruct (dropWhileEnd_split isSlash (trim url)) as (k & Hsplit & Hk).
    exists (dropWhileEnd isSlash (trim url)), (length k).
    split; [reflexivity|]. split.
    + rewrite Hsplit at 1. f_equal. now apply forallb_isSlash.
    + intros Hlast. apply dropWhileEnd_last in Hlast. discriminate.
Qed.

(** X2. The constructor refuses its options, with INVALID_ARGUMENT, exactly
    when the requested base URL is blank after trimming or the requested
    timeout is below 1; the default base URL and the default timeout are
    never refused.  Otherwise the client keeps the trimmed base URL without
    its trailing slashes, the API key as given (empty when absent) and the
    timeout as given. *)
Theorem newStemSeparatorClient_outcome (options : StemSeparatorClientOptions) :
  (failsWith INVALID_ARGUMENT (newStemSeparatorClient options) <->
     trim (requestedBaseUrl options) = []
     \/ PrimFloat.ltb (requestedTimeout options) 1 = true)
  /\ (trim (requestedBaseUrl options) <> [] ->
      PrimFloat.ltb (requestedTimeout options) 1 = false ->
      newStemSeparatorClient options
      = Ok {| baseUrl := replaceTrailingSlashes (trim (requestedBaseUrl options));
              apiKey := default [] (o_apiKey options);
              timeout := requestedTimeout options |})
  /\ (o_baseUrl options = None -> o_timeout options = None ->
      exists c, newStemSeparatorClient options = Ok c
        /\ baseUrl c = DEFAULT_BASE_URL /\ timeout c = DEFAULT_TIMEOUT_MS).
Proof.
  assert (Hgiven : trim (match o_baseUrl options with
                         | Some b => trim b
                         | None => DEFAULT_BASE_URL
                         end) = trim (requestedBaseUrl options)).
  { unfold requestedBaseUrl. destruct (o_baseUrl options); [apply trim_idem|reflexivity]. }
  unfold newStemSeparatorClient, normalizeBaseUrl. rewrite Hgiven.
  fold (requestedTimeout options).
  split; [|split].
  - destruct (isEmpty (trim (requestedBaseUrl options))) eqn:He; simpl.
    + apply isEmpty_true in He. split; [now left|reflexivity].
    + apply isEmpty_false in He.
      destruct (PrimFloat.ltb (requestedTimeout options) 1); simpl.
      * split; [now right|reflexivity].
      * split; [intros []|intros [?|?]; [contradiction|discriminate]].
  - intros Hne Hlt. apply isEmpty_false in Hne. rewrite Hne. simpl.
    now rewrite Hlt.
  - unfold requestedBaseUrl, requestedTimeout. intros -> ->.
    eexists. split; [vm_compute; reflexivity|]. split; reflexivity.
Qed.

(* ===================================================================== *)
(** ** Job identifiers and filenames                                       *)
(* ===================================================================== *)

Lemma assertValidJobId_safe (jobId : jsstring) :
  ~ unsafeJobId jobId -> assertValidJobId jobId = Ok tt.
Proof.
  unfold unsafeJobId, assertValidJobId, testPathSegment. intros Hsafe.
  destruct (isEmpty (trim jobId)) eqn:He.
  { apply isEmpty_true in He. tauto. }
  change [DOT; DOT] with (js "..").
  destruct (includes (js "..") (trim jobId)) eqn:Hd; [tauto|].
  destruct (existsb isSeparator (trim jobId)) eqn:Hs; [|reflexivity].
  apply existsb_isSeparator in Hs. tauto.
Qed.

(** What [sanitizeFilename] returns is part of what it was given. *)
Lemma sanitizeFilename_inside (filename r : jsstring) :
  sanitizeFilename filename = Ok r ->
  includes (js "..") filename = false
  /\ r = trim (replaceDirPrefix filename)
  /\ exists k1 k2, filename = k1 ++ r ++ k2.
Proof.
  unfold sanitizeFilename.
  destruct (includes (js "..") filename); [discriminate|].
  destruct (isEmpty (trim (replaceDirPrefix filename))); [discriminate|].
  intros [= <-]. split; [reflexivity|]. split; [reflexivity|].
  destruct (replaceDirPrefix_split filename) as (k & Hk).
  destruct (trim_split (replaceDirPrefix filename)) as (k1 & k2 & Ht).
  exists (k ++ k1), k2. rewrite <- app_assoc, <- Ht. exact Hk.
Qed.

(** X3. [getStemDownloadUrl] throws INVALID_ARGUMENT exactly when the job
    identifier is unsafe, or the filename contains [..], or nothing is left
    of the filename once its directory prefix and surrounding white space
    are removed. *)
Theorem getStemDownloadUrl_invalid_argument_iff
    (c : StemSeparatorClient) (jobId filename : jsstring) :
  failsWith INVALID_ARGUMENT (getStemDownloadUrl c jobId filename) <->
  unsafeJobId jobId
  \/ includes (js "..") filename = true
  \/ trim (replaceDirPrefix filename) = [].
Proof.
  split.
  - intros Hfail.
    unfold getStemDownloadUrl in Hfail.
    destruct (assertValidJobId jobId) as [[]|e] eqn:Hjob.
    + right. unfold sanitizeFilename in Hfail.
      destruct (includes (js "..") filename); [now left|].
      destruct (isEmpty (trim (replaceDirPrefix filename))) eqn:He.
      * right. now apply isEmpty_true.
      * simpl in Hfail.
        destruct (encodeURIComponent jobId); [|discriminate].
        destruct (encodeURIComponent _); [contradiction|discriminate].
    + left. clear Hfail. unfold assertValidJobId, unsafeJobId, testPathSegment in *.
      destruct (isEmpty (trim jobId)) eqn:He; [left; now apply isEmpty_true|].
      right. change [DOT; DOT] with (js "..") in Hjob.
      destruct (includes (js "..") (trim jobId)); [now left|]. right.
      destruct (existsb isSeparator (trim jobId)) eqn:Hs; [|discriminate].
      now apply existsb_isSeparator.
  - intros [Hbad|Hname].
    + apply assertValidJobId_unsafe in Hbad. unfold getStemDownloadUrl.
      destruct (assertValidJobId jobId) as [[]|e]; [contradiction|exact Hbad].
    + unfold getStemDownloadUrl.
      destruct (assertValidJobId jobId) as [[]|e] eqn:Hjob.
      * unfold sanitizeFilename. destruct Hname as [-> | ->]; [reflexivity|].
        destruct (includes (js "..") filename); reflexivity.
      * simpl. unfold assertValidJobId in Hjob.
        destruct (isEmpty (trim jobId)); [now injection Hjob as <-|].
        destruct (testPathSegment (trim jobId)); [now injection Hjob as <-|discriminate].
Qed.

(** X4. What [sanitizeFilename] returns is never empty, has no white space
    at either end, contains no [..], and is a part of the filename it was
    given. *)
Theorem sanitizeFilename_result (filename r : jsstring) :
  sanitizeFilename filename = Ok r ->
  r <> [] /\ trim r = r /\ includes (js "..") r = false
  /\ exists k1 k2, filename = k1 ++ r ++ k2.
Proof.
  intros Hr. destruct (sanitizeFilename_inside filename r Hr) as (Hdots & Heq & k1 & k2 & Hin).
  repeat split.
  - unfold sanitizeFilename in Hr. rewrite Hdots in Hr.
    destruct (isEmpty (trim (replaceDirPrefix filename))) eqn:He; [discriminate|].
    injection Hr as <-. now apply isEmpty_false.
  - rewrite Heq. apply trim_idem.
  - rewrite Hin in Hdots. exact (includes_inside _ _ _ _ Hdots).
  - now exists k1, k2.
Qed.

Lemma sanitizeFilename_result_witness :
  sanitizeFilename (js "stems/ vocals.wav ") = Ok (js "vocals.wav")
  /\ trim (js "vocals.wav") = js "vocals.wav"
  /\ includes (js "..") (js "vocals.wav") = false.
Proof.
  assert (Hr : sanitizeFilename (js "stems/ vocals.wav ") = Ok (js "vocals.wav"))
    by reflexivity.
  destruct (sanitizeFilename_result _ _ Hr) as (_ & Htrim & Hdots & _).
  repeat split; assumption.
Defined.

(** X5. When no line terminator precedes the last separator of a filename
    that [sanitizeFilename] accepts, the name returned contains neither [/]
    nor [\], and sanitizing it again returns it unchanged. *)
Theorem sanitizeFilename_no_separator (filename r : jsstring) :
  lineTerminatorBeforeLastSeparator filename = false ->
  sanitizeFilename filename = Ok r ->
  existsb isSeparator r = false /\ sanitizeFilename r = Ok r.
Proof.
  intros Hline Hr.
  destruct (sanitizeFilename_inside filename r Hr) as (Hdots & Heq & k1 & k2 & Hin).
  assert (Hsep : existsb isSeparator r = false).
  { rewrite Heq, (replaceDirPrefix_afterLastSeparator filename Hline).
    destruct (trim_split (afterLastSeparator filename)) as (t1 & t2 & Ht).
    apply (existsb_inside _ _ t1 t2). rewrite <- Ht.
    unfold afterLastSeparator.
    pose proof (lastIndexWhere_rest isSeparator filename) as Hrest.
    now destruct (lastIndexWhere isSeparator filename). }
  split; [exact Hsep|].
  assert (Hnodots : includes (js "..") r = false).
  { rewrite Hin in Hdots. exact (includes_inside _ _ _ _ Hdots). }
  assert (Hne : isEmpty r = false).
  { unfold sanitizeFilename in Hr. rewrite Hdots in Hr.
    destruct (isEmpty (trim (replaceDirPrefix filename))) eqn:He; [discriminate|].
    now injection Hr as <-. }
  unfold sanitizeFilename. rewrite Hnodots.
  assert (Hsame : replaceDirPrefix r = r).
  { unfold replaceDirPrefix.
    now rewrite (lastIndexWhere_takeWhile_None _ _ r (lastIndexWhere_None _ _ Hsep)). }
  rewrite Hsame.
  assert (Htrim : trim r = r) by (rewrite Heq; apply trim_idem).
  now rewrite Htrim, Hne.
Qed.

Lemma sanitizeFilename_no_separator_witness :
  existsb isSeparator (js "c.wav") = false
  /\ sanitizeFilename (js "c.wav") = Ok (js "c.wav").
Proof.
  exact (sanitizeFilename_no_separator (js "a\b/c.wav") (js "c.wav") eq_refl eq_refl).
Defined.

(* ===================================================================== *)
(** ** Percent escapes                                                     *)
(* ===================================================================== *)

(** Turns comparisons on code units into arithmetic. *)
Ltac reflect_chars :=
  repeat match goal with
         | H : _ || _ = true |- _ => apply orb_true_iff in H
         | H : _ && _ = true |- _ => apply andb_true_iff in H
         | H : _ \/ _ |- _ => destruct H
         | H : _ /\ _ |- _ => destruct H
         | H : (_ =? _) = true |- _ => apply N.eqb_eq in H
         | H : (_ <=? _) = true |- _ => apply N.leb_le in H
         | H : (_ <? _) = true |- _ => apply N.ltb_lt in H
         | H : (_ <? _) = false |- _ => apply N.ltb_ge in H
         end.

Lemma isPercentOrHex_segment (c : codeunit) :
  isPercentOrHex c = true -> isSegmentChar c = true.
Proof.
  unfold isPercentOrHex, isSegmentChar, isUnreserved. intros Hc. reflect_chars.
  - subst c. reflexivity.
  - apply orb_true_iff. left.
    replace ((0x30 <=? c) && (c <=? 0x39)) with true
      by (symmetry; apply andb_true_iff; split; apply N.leb_le; lia).
    now rewrite !orb_true_r.
  - apply orb_true_iff. left.
    replace ((0x41 <=? c) && (c <=? 0x5A)) with true
      by (symmetry; apply andb_true_iff; split; apply N.leb_le; lia).
    reflexivity.
Qed.

Lemma isPercentOrHex_query (c : codeunit) :
  isPercentOrHex c = true -> isQueryChar c = true.
Proof.
  unfold isPercentOrHex, isQueryChar, isFormSafe. intros Hc. reflect_chars.
  - subst c. reflexivity.
  - replace ((0x30 <=? c) && (c <=? 0x39)) with true
      by (symmetry; apply andb_true_iff; split; apply N.leb_le; lia).
    now rewrite !orb_true_r.
  - replace ((0x41 <=? c) && (c <=? 0x5A)) with true
      by (symmetry; apply andb_true_iff; split; apply N.leb_le; lia).
    reflexivity.
Qed.

Lemma hexDigit_hex (d : N) : d < 16 -> isPercentOrHex (hexDigit d) = true.
Proof.
  intros Hd. unfold hexDigit, isPercentOrHex.
  destruct (d <? 10) eqn:Hlt; reflect_chars.
  - replace ((0x30 <=? 0x30 + d) && (0x30 + d <=? 0x39)) with true
      by (symmetry; apply andb_true_iff; split; apply N.leb_le; lia).
    now rewrite orb_true_r.
  - replace ((0x41 <=? 0x41 + (d - 10)) && (0x41 + (d - 10) <=? 0x46)) with true
      by (symmetry; apply andb_true_iff; split; apply N.leb_le; lia).
    now rewrite orb_true_r.
Qed.

Lemma percentOctet_hex (o : N) :
  o < 256 -> Forall (fun c => isPercentOrHex c = true) (percentOctet o).
Proof.
  intros Ho. unfold percentOctet. repeat constructor.
  - apply hexDigit_hex. rewrite N.shiftr_div_pow2.
    apply N.Div0.div_lt_upper_bound. exact Ho.
  - apply hexDigit_hex. pose proof (N.land_le_r o 0xF). lia.
Qed.

Lemma percentOctets_hex (os : list N) :
  Forall (fun o => o < 256) os ->
  Forall (fun c => isPercentOrHex c = true) (percentOctets os).
Proof.
  induction 1 as [|o os Ho _ IH]; [constructor|].
  change (Forall (fun c => isPercentOrHex c = true)
            (percentOctet o ++ percentOctets os)).
  apply Forall_app_2; [now apply percentOctet_hex|exact IH].
Qed.

Lemma lor_lt_256 (a b : N) : a < 256 -> b < 256 -> N.lor a b < 256.
Proof.
  intros Ha Hb. destruct (N.eq_dec (N.lor a b) 0) as [->|Hne]; [lia|].
  change 256 with (2 ^ 8). apply N.log2_lt_pow2; [lia|].
  rewrite N.log2_lor.
  assert (Hlog : forall x, x < 256 -> N.log2 x < 8).
  { intros x Hx. destruct (N.eq_dec x 0) as [->|Hx0]; [reflexivity|].
    apply N.log2_lt_pow2; [lia|exact Hx]. }
  specialize (Hlog a Ha) as Hla. specialize (Hlog b Hb) as Hlb. lia.
Qed.

(** Every Unicode code point has octets. *)
Lemma utf8_octets (cp : N) :
  cp < 0x110000 -> Forall (fun o => o < 256) (utf8 cp).
Proof.
  intros Hcp. unfold utf8.
  assert (Hlow : forall x, N.land x 0x3F < 256)
    by (intros x; pose proof (N.land_le_r x 0x3F); lia).
  assert (Hcont : forall x, N.lor 0x80 (N.land x 0x3F) < 256)
    by (intros x; apply lor_lt_256; [lia|apply Hlow]).
  destruct (cp <? 0x80) eqn:H1; reflect_chars; [repeat constructor; lia|].
  destruct (cp <? 0x800) eqn:H2; reflect_chars.
  { repeat constructor; [|apply Hcont].
    apply lor_lt_256; [lia|]. rewrite N.shiftr_div_pow2.
    apply N.Div0.div_lt_upper_bound. simpl. lia. }
  destruct (cp <? 0x10000) eqn:H3; reflect_chars.
  { repeat constructor; [|apply Hcont..].
    apply lor_lt_256; [lia|]. rewrite N.shiftr_div_pow2.
    apply N.Div0.div_lt_upper_bound. simpl. lia. }
  repeat constructor; [|apply Hcont..].
  apply lor_lt_256; [lia|]. rewrite N.shiftr_div_pow2.
  apply N.Div0.div_lt_upper_bound. simpl. lia.
Qed.

Lemma pairCodePoint_bound (lead trail : codeunit) :
  isLeadSurrogate lead = true -> isTrailSurrogate trail = true ->
  pairCodePoint lead trail < 0x110000.
Proof.
  unfold isLeadSurrogate, isTrailSurrogate, pairCodePoint. intros Hl Ht.
  reflect_chars. lia.
Qed.

(** On a JavaScript string, [encodeURIComponent] yields unreserved
    characters and percent escapes only. *)
Lemma encodeURIComponent_chars (s r : jsstring) :
  is16bit s -> encodeURIComponent s = Some r ->
  Forall (fun c => isSegmentChar c = true) r.
Proof.
  remember (length s) as n eqn:Hn. revert s r Hn.
  induction n as [n IH] using lt_wf_ind. intros s r Hn Hbits.
  destruct s as [|c rest]; [intros [= <-]; constructor|].
  simpl in Hn. apply Forall_cons in Hbits as [Hc Hrest]. simpl.
  assert (Hescape : forall os, Forall (fun o => o < 256) os ->
            Forall (fun c => isSegmentChar c = true) (percentOctets os)).
  { intros os Hos. eapply Forall_impl; [exact (percentOctets_hex os Hos)|].
    apply isPercentOrHex_segment. }
  destruct (isUnreserved c) eqn:Hu.
  - destruct (encodeURIComponent rest) as [r'|] eqn:Hr'; [|discriminate].
    intros [= <-]. constructor.
    + unfold isSegmentChar. now rewrite Hu.
    + exact (IH (length rest) ltac:(lia) rest r' eq_refl Hrest Hr').
  - destruct (isTrailSurrogate c); [discriminate|].
    destruct (isLeadSurrogate c) eqn:Hlead.
    + destruct rest as [|d rest']; [discriminate|].
      destruct (isTrailSurrogate d) eqn:Htrail; [|discriminate].
      destruct (encodeURIComponent rest') as [r'|] eqn:Hr'; [|discriminate].
      intros [= <-]. apply Forall_cons in Hrest as [_ Hrest']. simpl in Hn.
      apply Forall_app_2.
      * apply Hescape, utf8_octets. now apply pairCodePoint_bound.
      * exact (IH (length rest') ltac:(lia) rest' r' eq_refl Hrest' Hr').
    + destruct (encodeURIComponent rest) as [r'|] eqn:Hr'; [|discriminate].
      intros [= <-]. apply Forall_app_2.
      * apply Hescape, utf8_octets. lia.
      * exact (IH (length rest) ltac:(lia) rest r' eq_refl Hrest Hr').
Qed.

(** A percent-encoded segment holds no [/], [\], [?] or [#]. *)
Lemma isSegmentChar_not_delimiter (c : codeunit) :
  isSegmentChar c = true ->
  c <> SLASH /\ c <> BACKSLASH /\ c <> 0x3F /\ c <> 0x23.
Proof.
  unfold isSegmentChar, isUnreserved, SLASH, BACKSLASH. intros Hc.
  reflect_chars; lia.
Qed.

Lemma percentOctets_utf8_nonempty (cp : N) : percentOctets (utf8 cp) <> [].
Proof.
  unfold utf8.
  destruct (cp <? 0x80); [discriminate|].
  destruct (cp <? 0x800); [discriminate|].
  destruct (cp <? 0x10000); discriminate.
Qed.

Lemma encodeURIComponent_nonempty (s r : jsstring) :
  s <> [] -> encodeURIComponent s = Some r -> r <> [].
Proof.
  destruct s as [|c rest]; [contradiction|]. intros _. simpl.
  assert (Happ : forall cp r', percentOctets (utf8 cp) ++ r' <> []).
  { intros cp r' Hnil. apply app_eq_nil in Hnil as [Hnil _].
    exact (percentOctets_utf8_nonempty cp Hnil). }
  destruct (isUnreserved c).
  - destruct (encodeURIComponent rest); [intros [= <-]; discriminate|discriminate].
  - destruct (isTrailSurrogate c); [discriminate|].
    destruct (isLeadSurrogate c).
    + destruct rest as [|d rest']; [discriminate|].
      destruct (isTrailSurrogate d); [|discriminate].
      destruct (encodeURIComponent rest'); [intros [= <-]; apply Happ|discriminate].
    + destruct (encodeURIComponent rest); [intros [= <-]; apply Happ|discriminate].
Qed.

(** [encodeURIComponent] leaves a text of unreserved characters alone. *)
Lemma encodeURIComponent_unreserved (s : jsstring) :
  forallb isUnreserved s = true -> encodeURIComponent s = Some s.
Proof.
  induction s as [|c s IH]; simpl; [reflexivity|].
  rewrite andb_true_iff. intros [Hc Hs]. now rewrite Hc, (IH Hs).
Qed.

Lemma is16bit_check (s : jsstring) :
  forallb (fun c => c <? 0x10000) s = true -> is16bit s.
Proof.
  intros Hs. apply Forall_forall. intros c Hc.
  rewrite forallb_forall in Hs. apply N.ltb_lt, Hs. now apply list_elem_of_In.
Qed.

Lemma is16bit_inside (s k1 k2 : jsstring) : is16bit (k1 ++ s ++ k2) -> is16bit s.
Proof.
  unfold is16bit. rewrite !Forall_app. tauto.
Qed.

(** X6. On JavaScript strings, a URL returned by [getStemDownloadUrl] is the
    base URL followed by ["/api/v1/separate/"], a segment, ["/download/"]
    and a segment; both segments are non-empty and made of unreserved
    characters and percent escapes only, so they hold no [/], [\], [?] or
    [#] of their own. *)
Theorem getStemDownloadUrl_segments
    (c : StemSeparatorClient) (jobId filename url : jsstring) :
  is16bit jobId -> is16bit filename ->
  getStemDownloadUrl c jobId filename = Ok url ->
  exists encodedJob encodedFile,
    url = baseUrl c ++ js "/api/v1/separate/" ++ encodedJob
            ++ js "/download/" ++ encodedFile
    /\ encodedJob <> [] /\ encodedFile <> []
    /\ Forall (fun ch => isSegmentChar ch = true) (encodedJob ++ encodedFile)
    /\ forall ch, ch ∈ encodedJob ++ encodedFile ->
         ch <> SLASH /\ ch <> BACKSLASH /\ ch <> 0x3F /\ ch <> 0x23.
Proof.
  intros Hjb Hfb. unfold getStemDownloadUrl.
  destruct (assertValidJobId jobId) as [[]|e] eqn:Hjob; [|discriminate].
  destruct (sanitizeFilename filename) as [safeName|e] eqn:Hname; [|discriminate].
  simpl.
  destruct (encodeURIComponent jobId) as [ej|] eqn:Hej; [|discriminate].
  destruct (encodeURIComponent safeName) as [ef|] eqn:Hef; [|discriminate].
  intros [= <-]. exists ej, ef.
  destruct (sanitizeFilename_inside _ _ Hname) as (_ & _ & k1 & k2 & Hin).
  assert (Hsb : is16bit safeName) by (rewrite Hin in Hfb; exact (is16bit_inside _ _ _ Hfb)).
  assert (Hchars : Forall (fun ch => isSegmentChar ch = true) (ej ++ ef)).
  { apply Forall_app_2;
      [exact (encodeURIComponent_chars jobId ej Hjb Hej)
      |exact (encodeURIComponent_chars safeName ef Hsb Hef)]. }
  split; [reflexivity|]. split; [|split; [|split; [exact Hchars|]]].
  - apply (encodeURIComponent_nonempty jobId); [|exact Hej].
    intros ->. discriminate Hjob.
  - apply (encodeURIComponent_nonempty safeName); [|exact Hef].
    intros ->. unfold sanitizeFilename in Hname.
    destruct (includes (js "..") filename); [discriminate|].
    destruct (isEmpty (trim (replaceDirPrefix filename))) eqn:He; [discriminate|].
    injection Hname as Hname. rewrite Hname in He. discriminate.
  - intros ch Hch. apply isSegmentChar_not_delimiter.
    rewrite Forall_forall in Hchars. now apply Hchars.
Qed.

Lemma getStemDownloadUrl_segments_witness :
  exists encodedJob encodedFile,
    js "https://api.example.com/api/v1/separate/a%3Fb/download/c%23d.wav"
    = baseUrl exampleClient ++ js "/api/v1/separate/" ++ encodedJob
        ++ js "/download/" ++ encodedFile
    /\ encodedJob <> [] /\ encodedFile <> []
    /\ Forall (fun ch => isSegmentChar ch = true) (encodedJob ++ encodedFile)
    /\ forall ch, ch ∈ encodedJob ++ encodedFile ->
         ch <> SLASH /\ ch <> BACKSLASH /\ ch <> 0x3F /\ ch <> 0x23.
Proof.
  apply (getStemDownloadUrl_segments exampleClient (js "a?b") (js "x/c#d.wav")).
  - apply is16bit_check. reflexivity.
  - apply is16bit_check. reflexivity.
  - reflexivity.
Defined.

Lemma isUnreserved_plain (c : codeunit) :
  isUnreserved c = true ->
  isWhiteSpace c = false /\ isSeparator c = false.
Proof.
  unfold isUnreserved, isWhiteSpace, isSeparator, SLASH, BACKSLASH.
  intros Hc. reflect_chars;
    (split; repeat (apply orb_false_iff; split);
     try (apply N.eqb_neq; lia);
     apply andb_false_iff; rewrite !N.leb_gt; lia).
Qed.

(** A non-empty text of unreserved characters without [..] passes
    [sanitizeFilename] unchanged. *)
Lemma sanitizeFilename_unreserved (s : jsstring) :
  s <> [] -> forallb isUnreserved s = true -> includes (js "..") s = false ->
  sanitizeFilename s = Ok s.
Proof.
  intros Hne Hall Hdots.
  assert (Hin : forall c, c ∈ s -> isWhiteSpace c = false /\ isSeparator c = false).
  { intros c Hc. apply isUnreserved_plain.
    rewrite forallb_forall in Hall. apply Hall. now apply list_elem_of_In. }
  assert (Hsep : existsb isSeparator s = false).
  { destruct (existsb isSeparator s) eqn:He; [|reflexivity].
    apply existsb_exists in He as (c & Hc & Hs).
    apply list_elem_of_In in Hc. destruct (Hin c Hc). congruence. }
  assert (Htrim : trim s = s).
  { apply trim_fixed; intros c Hc; apply Hin.
    - destruct s; [discriminate|]. injection Hc as ->. left.
    - now apply last_Some_elem_of. }
  unfold sanitizeFilename. rewrite Hdots.
  unfold replaceDirPrefix.
  rewrite (lastIndexWhere_takeWhile_None _ _ s (lastIndexWhere_None _ _ Hsep)).
  rewrite Htrim. apply isEmpty_false in Hne. now rewrite Hne.
Qed.

(** X7. A job identifier and a filename that are non-empty, made of
    unreserved characters (letters, digits and [-_.!~*'()]) and free of [..]
    appear literally in the URL. *)
Theorem getStemDownloadUrl_literal
    (c : StemSeparatorClient) (jobId filename : jsstring) :
  jobId <> [] -> filename <> [] ->
  forallb isUnreserved jobId = true -> forallb isUnreserved filename = true ->
  includes (js "..") jobId = false -> includes (js "..") filename = false ->
  getStemDownloadUrl c jobId filename
  = Ok (baseUrl c ++ js "/api/v1/separate/" ++ jobId ++ js "/download/" ++ filename).
Proof.
  intros Hj Hf Huj Huf Hdj Hdf.
  pose proof (sanitizeFilename_unreserved jobId Hj Huj Hdj) as Hsj.
  pose proof (sanitizeFilename_unreserved filename Hf Huf Hdf) as Hsf.
  assert (Hjob : assertValidJobId jobId = Ok tt).
  { apply assertValidJobId_safe. unfold unsafeJobId.
    destruct (sanitizeFilename_inside _ _ Hsj) as (_ & Hjt & _).
    assert (Htrim : trim jobId = jobId).
    { unfold sanitizeFilename in Hsj. rewrite Hdj in Hsj.
      destruct (isEmpty (trim (replaceDirPrefix jobId))); [discriminate|].
      injection Hsj as Hsj. rewrite <- Hsj at 2. rewrite <- Hsj at 1.
      apply trim_idem. }
    rewrite Htrim. intros [?|[?|Hsep]]; [contradiction|congruence|].
    apply existsb_isSeparator in Hsep.
    apply existsb_exists in Hsep as (ch & Hch & Hs).
    rewrite forallb_forall in Huj.
    destruct (isUnreserved_plain ch (Huj ch Hch)). congruence. }
  unfold getStemDownloadUrl. rewrite Hjob, Hsf. simpl.
  now rewrite (encodeURIComponent_unreserved _ Huj), (encodeURIComponent_unreserved _ Huf).
Qed.

Lemma getStemDownloadUrl_literal_witness :
  getStemDownloadUrl exampleClient (js "job-1") (js "vocals.wav")
  = Ok (js "https://api.example.com/api/v1/separate/job-1/download/vocals.wav").
Proof.
  apply (getStemDownloadUrl_literal exampleClient (js "job-1") (js "vocals.wav"));
    (discriminate || reflexivity).
Defined.

(* ===================================================================== *)
(** ** Query string                                                        *)
(* ===================================================================== *)

Lemma urlencoded_cons (c : codeunit) (rest : jsstring) :
  urlencoded (c :: rest)
  = if c =? 0x20 then 0x2B :: urlencoded rest
    else if isFormSafe c then c :: urlencoded rest
    else if isLeadSurrogate c then
      match rest with
      | d :: rest' =>
          if isTrailSurrogate d
          then percentOctets (utf8 (pairCodePoint c d)) ++ urlencoded rest'
          else percentOctets (utf8 0xFFFD) ++ urlencoded rest
      | [] => percentOctets (utf8 0xFFFD)
      end
    else if isTrailSurrogate c then percentOctets (utf8 0xFFFD) ++ urlencoded rest
    else percentOctets (utf8 c) ++ urlencoded rest.
Proof. reflexivity. Qed.

(** A serialized name or value holds form-safe characters, [+] and percent
    escapes only. *)
Lemma urlencoded_chars (s : jsstring) :
  is16bit s -> Forall (fun c => isQueryChar c = true) (urlencoded s).
Proof.
  remember (length s) as n eqn:Hn. revert s Hn.
  induction n as [n IH] using lt_wf_ind. intros s Hn Hbits.
  destruct s as [|c rest]; [constructor|].
  simpl in Hn. apply Forall_cons in Hbits as [Hc Hrest].
  assert (Hescape : forall cp, cp < 0x110000 ->
            Forall (fun c => isQueryChar c = true) (percentOctets (utf8 cp))).
  { intros cp Hcp. eapply Forall_impl; [exact (percentOctets_hex _ (utf8_octets cp Hcp))|].
    apply isPercentOrHex_query. }
  assert (Hnext : Forall (fun c => isQueryChar c = true) (urlencoded rest))
    by exact (IH (length rest) ltac:(lia) rest eq_refl Hrest).
  rewrite urlencoded_cons.
  destruct (c =? 0x20) eqn:Hsp; [constructor; [reflexivity|exact Hnext]|].
  destruct (isFormSafe c) eqn:Hsafe.
  { constructor; [|exact Hnext]. unfold isQueryChar. now rewrite Hsafe. }
  destruct (isLeadSurrogate c) eqn:Hlead.
  - destruct rest as [|d rest']; [apply Hescape; lia|]. cbv beta iota.
    destruct (isTrailSurrogate d) eqn:Htrail.
    + apply Forall_cons in Hrest as [_ Hrest']. simpl in Hn.
      apply Forall_app_2; [apply Hescape; now apply pairCodePoint_bound|].
      exact (IH (length rest') ltac:(lia) rest' eq_refl Hrest').
    + apply Forall_app_2; [apply Hescape; lia|exact Hnext].
  - destruct (isTrailSurrogate c);
      (apply Forall_app_2; [apply Hescape; lia|exact Hnext]).
Qed.

Lemma isQueryChar_queryString (c : codeunit) :
  isQueryChar c = true -> isQueryStringChar c = true.
Proof. unfold isQueryStringChar. now intros ->. Qed.

Lemma searchParam_chars (k v : jsstring) :
  is16bit k -> is16bit v ->
  Forall (fun c => isQueryStringChar c = true) (urlencoded k ++ js "=" ++ urlencoded v).
Proof.
  intros Hk Hv. apply Forall_app_2; [|apply Forall_app_2].
  - eapply Forall_impl; [exact (urlencoded_chars k Hk)|apply isQueryChar_queryString].
  - repeat constructor.
  - eapply Forall_impl; [exact (urlencoded_chars v Hv)|apply isQueryChar_queryString].
Qed.

Lemma searchParamsToString_chars (params : list (jsstring * jsstring)) :
  Forall (fun kv => is16bit kv.1 /\ is16bit kv.2) params ->
  Forall (fun c => isQueryStringChar c = true) (searchParamsToString params).
Proof.
  induction 1 as [|[k v] rest [Hk Hv] _ IH]; [constructor|].
  simpl in Hk, Hv. destruct rest as [|kv rest].
  - exact (searchParam_chars k v Hk Hv).
  - change (Forall (fun c => isQueryStringChar c = true)
              (urlencoded k ++ js "=" ++ urlencoded v ++ js "&"
                 ++ searchParamsToString (kv :: rest))).
    rewrite 2!app_assoc, <- (app_assoc (urlencoded k)).
    apply Forall_app_2; [exact (searchParam_chars k v Hk Hv)|].
    apply Forall_app_2; [repeat constructor|exact IH].
Qed.

Lemma searchParamsToString_nil (params : list (jsstring * jsstring)) :
  searchParamsToString params = [] <-> params = [].
Proof.
  split; [|now intros ->].
  destruct params as [|[k v] rest]; [reflexivity|]. intros Hnil. exfalso.
  assert (Hno : forall t, urlencoded k ++ js "=" ++ t <> []).
  { intros t Ht. apply app_eq_nil in Ht as [_ Ht]. discriminate Ht. }
  destruct rest; exact (Hno _ Hnil).
Qed.

Lemma recognized_16bit (valid : list jsstring) (s : jsstring) :
  forallb (fun v => forallb (fun c => c <? 0x10000) v) valid = true ->
  arrayIncludes valid s = true -> is16bit s.
Proof.
  intros Hvalid Hs. apply bool_decide_eq_true_1 in Hs.
  apply is16bit_check. rewrite forallb_forall in Hvalid.
  apply Hvalid. now apply list_elem_of_In.
Qed.

(** The parameters [buildSeparateQueryString] sets, in order. *)
Lemma buildSeparateQueryString_params (options : SeparateOptions) :
  exists params,
    buildSeparateQueryString options
    = (if isEmpty (searchParamsToString params) then []
       else js "?" ++ searchParamsToString params)
    /\ params
       = match recognizedOnly VALID_STEMS (opt_stems options) with
         | Some s => [(js "stems", s)] | None => []
         end
         ++ match trimmedNonBlank (opt_bitrate options) with
            | Some b => [(js "bitrate", b)] | None => []
            end
         ++ match recognizedOnly VALID_FORMATS (opt_format options) with
            | Some f => [(js "format", f)] | None => []
            end.
Proof.
  eexists. split; [|reflexivity].
  unfold buildSeparateQueryString, recognizedOnly, trimmedNonBlank.
  assert (Hblank : forall b, negb (isEmpty b) && negb (isEmpty (trim b))
                             = negb (isEmpty (trim b))).
  { intros [|c b]; [reflexivity|]. reflexivity. }
  assert (Hvalid : forall valid s,
            forallb (fun v => negb (isEmpty v)) valid = true ->
            negb (isEmpty s) && arrayIncludes valid s = arrayIncludes valid s).
  { intros valid s Hall. destruct (arrayIncludes valid s) eqn:Hs;
      [|apply andb_false_r].
    apply bool_decide_eq_true_1 in Hs. rewrite forallb_forall in Hall.
    rewrite (Hall s); [reflexivity|]. now apply list_elem_of_In. }
  destruct (opt_stems options) as [s|];
    [rewrite (Hvalid VALID_STEMS s eq_refl); destruct (arrayIncludes VALID_STEMS s)|];
    (destruct (opt_bitrate options) as [b|];
     [rewrite (Hblank b); destruct (isEmpty (trim b))|]);
    (destruct (opt_format options) as [f|];
     [rewrite (Hvalid VALID_FORMATS f eq_refl); destruct (arrayIncludes VALID_FORMATS f)|]);
    reflexivity.
Qed.

Lemma occurrences_app (c : codeunit) (s t : jsstring) :
  occurrences c (s ++ t) = (occurrences c s + occurrences c t)%nat.
Proof. unfold occurrences. now rewrite List.filter_app, length_app. Qed.

(** A serialized name or value holds neither [=] nor [&]. *)
Lemma occurrences_urlencoded (c : codeunit) (s : jsstring) :
  isQueryChar c = false -> is16bit s -> occurrences c (urlencoded s) = 0%nat.
Proof.
  intros Hc Hs. pose proof (urlencoded_chars s Hs) as Hchars.
  induction Hchars as [|x rest Hx _ IH]; [reflexivity|].
  unfold occurrences in *. simpl.
  destruct (x =? c) eqn:Hxc; [|exact IH].
  apply N.eqb_eq in Hxc. congruence.
Qed.

Lemma occurrences_searchParam (c : codeunit) (k v : jsstring) :
  isQueryChar c = false -> is16bit k -> is16bit v ->
  occurrences c (urlencoded k ++ js "=" ++ urlencoded v)
  = if c =? 0x3D then 1%nat else 0%nat.
Proof.
  intros Hc Hk Hv.
  rewrite !occurrences_app, !occurrences_urlencoded by assumption.
  assert (Heq : occurrences c (js "=") = if c =? 0x3D then 1%nat else 0%nat).
  { unfold occurrences. change (js "=") with [0x3D].
    change (List.filter (fun x => x =? c) [0x3D])
      with (if 0x3D =? c then [0x3D] else []).
    rewrite (N.eqb_sym 0x3D c). now destruct (c =? 0x3D). }
  rewrite Heq. now destruct (c =? 0x3D).
Qed.

(** One [=] for each parameter, one [&] between two of them. *)
Lemma searchParamsToString_count (params : list (jsstring * jsstring)) :
  Forall (fun kv => is16bit kv.1 /\ is16bit kv.2) params ->
  occurrences 0x3D (searchParamsToString params) = length params
  /\ occurrences 0x26 (searchParamsToString params) = pred (length params).
Proof.
  induction 1 as [|[k v] rest [Hk Hv] _ [IHeq IHamp]]; [split; reflexivity|].
  simpl in Hk, Hv.
  pose proof (occurrences_searchParam 0x3D k v eq_refl Hk Hv) as Heq.
  pose proof (occurrences_searchParam 0x26 k v eq_refl Hk Hv) as Hamp.
  destruct rest as [|kv rest]; [split; assumption|].
  change (searchParamsToString ((k, v) :: kv :: rest))
    with (urlencoded k ++ js "=" ++ urlencoded v ++ js "&"
            ++ searchParamsToString (kv :: rest)).
  rewrite 2!app_assoc, <- (app_assoc (urlencoded k)).
  rewrite !(occurrences_app _ (urlencoded k ++ js "=" ++ urlencoded v)).
  rewrite !(occurrences_app _ (js "&")).
  rewrite Heq, Hamp, IHeq, IHamp.
  split; reflexivity.
Qed.

(** X8. Whatever the options, the query string is empty, and no parameter is
    set, or it is a [?] followed by a non-empty text; with a bitrate that is
    a JavaScript string, that text holds only form-safe characters
    ([A-Za-z0-9*-._]), [+], percent escapes, [=] and [&], with exactly one
    [=] for each parameter that is set and one [&] less: the text of an
    option adds neither, so it cannot inject a parameter. *)
Theorem buildSeparateQueryString_chars (options : SeparateOptions) :
  (forall b, opt_bitrate options = Some b -> is16bit b) ->
  (buildSeparateQueryString options = [] /\ paramCount options = 0%nat)
  \/ exists q, buildSeparateQueryString options = js "?" ++ q
       /\ q <> []
       /\ Forall (fun c => isQueryStringChar c = true) q
       /\ occurrences 0x3D q = paramCount options
       /\ S (occurrences 0x26 q) = paramCount options.
Proof.
  intros Hbits.
  destruct (buildSeparateQueryString_params options) as (params & -> & Hparams).
  assert (Hlen : length params = paramCount options).
  { rewrite Hparams, !length_app. unfold paramCount.
    destruct (recognizedOnly VALID_STEMS (opt_stems options));
      destruct (trimmedNonBlank (opt_bitrate options));
      destruct (recognizedOnly VALID_FORMATS (opt_format options)); reflexivity. }
  assert (H16 : Forall (fun kv => is16bit kv.1 /\ is16bit kv.2) params).
  { rewrite Hparams. unfold recognizedOnly, trimmedNonBlank.
    repeat apply Forall_app_2.
    - destruct (opt_stems options) as [s|]; [|constructor].
      destruct (arrayIncludes VALID_STEMS s) eqn:Hs; [|constructor].
      constructor; [split; simpl|constructor].
      + apply is16bit_check. reflexivity.
      + exact (recognized_16bit VALID_STEMS s eq_refl Hs).
    - destruct (opt_bitrate options) as [b|]; [|constructor].
      destruct (isEmpty (trim b)); [constructor|].
      constructor; [split; simpl|constructor].
      + apply is16bit_check. reflexivity.
      + destruct (trim_split b) as (k1 & k2 & Hb).
        apply (is16bit_inside _ k1 k2). rewrite <- Hb. now apply Hbits.
    - destruct (opt_format options) as [f|]; [|constructor].
      destruct (arrayIncludes VALID_FORMATS f) eqn:Hf; [|constructor].
      constructor; [split; simpl|constructor].
      + apply is16bit_check. reflexivity.
      + exact (recognized_16bit VALID_FORMATS f eq_refl Hf). }
  destruct (searchParamsToString_count params H16) as [Heq Hamp].
  destruct (isEmpty (searchParamsToString params)) eqn:He.
  - left. split; [reflexivity|].
    apply isEmpty_true, searchParamsToString_nil in He.
    rewrite <- Hlen, He. reflexivity.
  - right. exists (searchParamsToString params).
    apply isEmpty_false in He.
    split; [reflexivity|]. split; [exact He|].
    split; [now apply searchParamsToString_chars|].
    split; [now rewrite Heq|].
    rewrite Hamp, <- Hlen.
    destruct params; [now contradiction He|reflexivity].
Qed.

Lemma buildSeparateQueryString_chars_witness :
  exists q,
    buildSeparateQueryString
      {| opt_filename := None; opt_stems := Some (js "5stems");
         opt_bitrate := Some (js " 320k&x=1 #"); opt_format := Some (js "flac") |}
    = js "?" ++ q
    /\ q = js "stems=5stems&bitrate=320k%26x%3D1+%23&format=flac"
    /\ occurrences 0x3D q = 3%nat
    /\ occurrences 0x26 q = 2%nat.
Proof.
  destruct (buildSeparateQueryString_chars
              {| opt_filename := None; opt_stems := Some (js "5stems");
                 opt_bitrate := Some (js " 320k&x=1 #"); opt_format := Some (js "flac") |})
    as [[Hnil _]|(q & Hq & _ & _ & Heq & Hamp)].
  - intros b [= <-]. apply is16bit_check. reflexivity.
  - discriminate Hnil.
  - exists q. split; [exact Hq|].
    split; [now injection Hq as <-|].
    split; [exact Heq|]. now injection Hamp.
Defined.

(** X9. [buildSeparateQueryString] reads its options leniently: a [stems]
    or [format] value that is not recognized, and a bitrate that is blank,
    count as absent; a bitrate is trimmed; the [filename] option plays no
    part.  The query string is empty exactly when nothing is left. *)
Theorem buildSeparateQueryString_lenient (options : SeparateOptions) :
  buildSeparateQueryString options
  = buildSeparateQueryString
      {| opt_filename := None;
         opt_stems := recognizedOnly VALID_STEMS (opt_stems options);
         opt_bitrate := trimmedNonBlank (opt_bitrate options);
         opt_format := recognizedOnly VALID_FORMATS (opt_format options) |}
  /\ (buildSeparateQueryString options = [] <->
        recognizedOnly VALID_STEMS (opt_stems options) = None
        /\ trimmedNonBlank (opt_bitrate options) = None
        /\ recognizedOnly VALID_FORMATS (opt_format options) = None).
Proof.
  split.
  - destruct (buildSeparateQueryString_params options) as (p1 & -> & Hp1).
    destruct (buildSeparateQueryString_params
                {| opt_filename := None;
                   opt_stems := recognizedOnly VALID_STEMS (opt_stems options);
                   opt_bitrate := trimmedNonBlank (opt_bitrate options);
                   opt_format := recognizedOnly VALID_FORMATS (opt_format options) |})
      as (p2 & -> & Hp2).
    simpl in Hp2.
    assert (Hrec : forall valid o,
              recognizedOnly valid (recognizedOnly valid o) = recognizedOnly valid o).
    { intros valid [s|]; [|reflexivity]. simpl.
      destruct (arrayIncludes valid s) eqn:Hs; [|reflexivity]. simpl. now rewrite Hs. }
    assert (Htrim : forall o, trimmedNonBlank (trimmedNonBlank o) = trimmedNonBlank o).
    { intros [b|]; [|reflexivity]. simpl.
      destruct (isEmpty (trim b)) eqn:Hb; [reflexivity|]. simpl.
      now rewrite trim_idem, Hb. }
    rewrite !Hrec, Htrim in Hp2. now rewrite Hp1, Hp2.
  - destruct (buildSeparateQueryString_params options) as (params & -> & Hparams).
    assert (Hnil : (if isEmpty (searchParamsToString params) then []
                    else js "?" ++ searchParamsToString params) = [] <-> params = []).
    { destruct (isEmpty (searchParamsToString params)) eqn:He.
      - apply isEmpty_true in He. now rewrite <- searchParamsToString_nil.
      - apply isEmpty_false in He. rewrite <- searchParamsToString_nil.
        split; [discriminate|contradiction]. }
    rewrite Hnil, Hparams.
    destruct (recognizedOnly VALID_STEMS (opt_stems options));
      destruct (trimmedNonBlank (opt_bitrate options));
      destruct (recognizedOnly VALID_FORMATS (opt_format options));
      simpl; split; try discriminate; try (intros (? & ? & ?); discriminate);
      auto.
Qed.

(* ===================================================================== *)
(** ** Parser results                                                      *)
(* ===================================================================== *)

Lemma filterNonEmptyStrings_nonempty (fs : list value) :
  Forall (fun f => f <> []) (filterNonEmptyStrings fs).
Proof.
  induction fs as [|f fs IH]; [constructor|].
  destruct f as [| | | |s| |]; try exact IH.
  change (Forall (fun f => f <> [])
            (if negb (isEmpty s) then s :: filterNonEmptyStrings fs
             else filterNonEmptyStrings fs)).
  destruct s; simpl; [exact IH|]. constructor; [discriminate|exact IH].
Qed.

(** X10. Every result of [parseSeparateResponse] has [success] true, a job
    identifier that is not blank, a recognized [stems] value, output files
    that are all non-empty, and a processing time that is [>= 0] (so never
    NaN). *)
Theorem parseSeparateResponse_invariant (body : value) (r : SeparateResponse) :
  parseSeparateResponse body = Ok r ->
  success r = true
  /\ trim (job_id r) <> []
  /\ stems r ∈ VALID_STEMS
  /\ Forall (fun f => f <> []) (output_files r)
  /\ PrimFloat.leb 0 (processing_time r) = true.
Proof.
  unfold parseSeparateResponse.
  destruct (isObject body); simpl; [|discriminate].
  destruct (getProp (js "success") body) as [| |[|]| | | |]; try discriminate.
  destruct (getProp (js "job_id") body) as [| | | |j| |]; try discriminate.
  destruct (isEmpty (trim j)) eqn:Hj; [discriminate|].
  destruct (getProp (js "output_files") body) as [| | | | |fs|]; try discriminate.
  intros [= <-]. simpl. repeat split.
  - now apply isEmpty_false.
  - assert (Hdefault : js "2stems" ∈ VALID_STEMS) by left.
    destruct (getProp (js "stems") body) as [| | | |s| |]; try exact Hdefault.
    destruct (arrayIncludes VALID_STEMS s) eqn:Hs; [|exact Hdefault].
    now apply bool_decide_eq_true_1 in Hs.
  - apply filterNonEmptyStrings_nonempty.
  - destruct (getProp (js "processing_time") body) as [| | |t| | |]; try reflexivity.
    destruct (PrimFloat.leb 0 t) eqn:Ht; [exact Ht|reflexivity].
Qed.

Lemma parseSeparateResponse_invariant_witness :
  exists r, parseSeparateResponse
              (obj [(js "success", VBool true); (js "job_id", VStr (js "job-1"));
                    (js "output_files", VArr [VStr []; VStr (js "vocals.wav")]);
                    (js "stems", VStr (js "9stems"));
                    (js "processing_time", VNum (0 / 0)%float)]) = Ok r
    /\ stems r ∈ VALID_STEMS
    /\ Forall (fun f => f <> []) (output_files r)
    /\ PrimFloat.leb 0 (processing_time r) = true.
Proof.
  eexists. split; [vm_compute; reflexivity|].
  match goal with
  | |- context [processing_time ?r] =>
      destruct (parseSeparateResponse_invariant
                  (obj [(js "success", VBool true); (js "job_id", VStr (js "job-1"));
                        (js "output_files", VArr [VStr []; VStr (js "vocals.wav")]);
                        (js "stems", VStr (js "9stems"));
                        (js "processing_time", VNum (0 / 0)%float)]) r)
        as (_ & _ & Hs & Hf & Ht)
  end; [vm_compute; reflexivity|].
  repeat split; assumption.
Defined.


(* ===================================================================== *)
(** ** Errors of the transport                                             *)
(* ===================================================================== *)



Lemma fetchWithTimeout_outcome (o : FetchOutcome) (timeoutMs : float) :
  match fetchWithTimeout o timeoutMs with
  | Ok res => o = FetchResolved res
  | Err e => fetchRejected o = true /\ wellFormedError e
             /\ errorCode e = Some (if aborted o then TIMEOUT else NETWORK_ERROR)
  end.
Proof.
  unfold fetchWithTimeout, wellFormedError.
  destruct o as [res|name m|err]; simpl; [reflexivity| |].
  - destruct (bool_decide (name = js "AbortError")); simpl;
      repeat split; eauto; intros [? [=]].
  - repeat split; eauto; intros [? [=]].
Qed.






(* ===================================================================== *)
(** ** The operations, request by request                                  *)
(* ===================================================================== *)

Section Operations.
Context `{Host}.

(** X11. [createForm] returns exactly when the host can attach the file.
    With a global [FormData] that is for a [File] or a [Blob] only, and only
    where [File] is defined: for a path, a [Buffer] or a stream the
    [append] of [FormData] throws its [TypeError], and where [File] is not
    defined the first test throws a [ReferenceError] whatever the file.
    Without a global [FormData] it is when the [form-data] package takes
    the part.  A form that is returned has exactly one part, named
    ["file"]: a path is attached as a read stream of that path, anything
    else as it is; it is a native [FormData] exactly when the host has one,
    and then no header is added.  What [createForm] throws is never a
    [StemSeparatorError]. *)
Theorem createForm_single_part (file : SeparateInput) (filename : jsstring) :
  ((exists built, createForm file filename = Ok built) <->
     attachable file filename = true)
  /\ (forall form formHeaders, createForm file filename = Ok (form, formHeaders) ->
        form_parts form = [partOf file filename]
        /\ form_impl form = (if has_FormData then NativeFormData else FormDataPackage)
        /\ (has_FormData = true -> formHeaders = ∅))
  /\ (forall e, createForm file filename = Err e ->
        errorCode e = None
        /\ (has_FormData = true ->
            e = if has_File then notBlob else fileNotDefined))
  /\ (has_FormData = true -> has_File = true -> isFileOrBlob file = false ->
      createForm file filename = Err notBlob).
Proof.
  pose proof (createForm_outcome file filename) as Hform.
  destruct (createForm file filename) as [[form formHeaders]|e].
  - destruct Hform as (Hyes & -> & Hheaders).
    split; [|split; [|split]].
    + split; [intros _; exact Hyes|intros _; now eexists].
    + intros form' headers' [= <- <-]. repeat split. exact Hheaders.
    + intros e [=].
    + intros Hnative Hfile Hblob. unfold attachable in Hyes.
      rewrite Hnative, Hfile, Hblob in Hyes. discriminate.
  - destruct Hform as (Hno & Hcode & Hnative).
    split; [|split; [|split]].
    + split; [intros (built & [=])|congruence].
    + intros form' headers' [=].
    + intros e' [= <-]. split; [exact Hcode|exact Hnative].
    + intros Hn Hfile _. rewrite (Hnative Hn), Hfile. reflexivity.
Qed.

(** X12. [downloadStem] requests exactly the URL [getStemDownloadUrl]
    computes: when that throws, [downloadStem] rejects with the same value
    before any request; otherwise its first request is a GET of that URL
    with the authorization headers, no body, and the client's timeout. *)
Theorem downloadStem_request (c : StemSeparatorClient) (jobId filename : jsstring) :
  match getStemDownloadUrl c jobId filename with
  | Err e => downloadStem c jobId filename = Throw e
  | Ok url =>
      firstRequest (downloadStem c jobId filename)
      = Some {| req_method := GET; req_url := url;
                req_headers := getAuthHeaders (apiKey c);
                req_body := None; req_timeout := timeout c |}
  end.
Proof.
  unfold downloadStem.
  destruct (getStemDownloadUrl c jobId filename) as [url|e] eqn:Hurl.
  - unfold getStemDownloadUrl in Hurl.
    destruct (assertValidJobId jobId) as [[]|]; [|discriminate].
    destruct (sanitizeFilename filename); [|discriminate].
    now destruct has_fetch.
  - unfold getStemDownloadUrl in Hurl.
    destruct (assertValidJobId jobId) as [[]|]; [|now injection Hurl as <-].
    destruct (sanitizeFilename filename); [reflexivity|now injection Hurl as <-].
Qed.

(** X13. Whatever the client's API key and timeout, the one request of
    [checkHealth] is a GET of the base URL followed by ["/health"], with no
    header at all and the fixed health timeout; and the payload of a
    successful check is returned as received, whatever its shape. *)
Theorem checkHealth_request (c : StemSeparatorClient) :
  firstRequest (checkHealth c)
  = Some {| req_method := GET; req_url := baseUrl c ++ js "/health";
            req_headers := ∅; req_body := None;
            req_timeout := HEALTH_TIMEOUT_MS |}
  /\ (forall data, afterAxiosJson (checkHealth c) (AxiosResolved data)
                   = if has_fetch then None else Some (Return data))
  /\ (forall res data, res_ok res = true -> res_json res = Ok data ->
        afterFetch (checkHealth c) (FetchResolved res)
        = if has_fetch then Some (Return data) else None).
Proof.
  unfold checkHealth. destruct has_fetch; simpl; repeat split.
  intros res data Hok Hjson. now rewrite Hok, Hjson.
Qed.

(** X14. No operation retries or follows up: each of [separate],
    [downloadStem] and [checkHealth] issues one transport request at most,
    and returns or throws as soon as that request has settled. *)
Theorem operations_single_request (c : StemSeparatorClient) :
  (forall file options, atMostOneRequest (separate c file options))
  /\ (forall jobId filename, atMostOneRequest (downloadStem c jobId filename))
  /\ atMostOneRequest (checkHealth c).
Proof.
  split; [|split].
  - intros file options. unfold separate.
    destruct (assertValidFileInput file); [|exact I].
    destruct (separateFilename options) as [filename|]; [|exact I].
    destruct (createForm file filename) as [[form formHeaders]|]; [|exact I].
    destruct has_fetch; simpl; intros o.
    + destruct (fetchWithTimeout o (timeout c)) as [res|]; [|reflexivity].
      destruct (res_json res) as [body|]; [|now destruct (res_text res)].
      destruct (res_ok res); simpl; [|now destruct (detailOr body _)].
      now destruct (parseSeparateResponse body).
    + destruct o as [data|err]; [|reflexivity].
      now destruct (parseSeparateResponse data).
  - intros jobId filename. unfold downloadStem.
    destruct (assertValidJobId jobId); [|exact I].
    destruct (sanitizeFilename filename); [|exact I].
    destruct (getStemDownloadUrl c jobId filename); [|exact I].
    destruct has_fetch; simpl; intros o.
    + destruct (fetchWithTimeout o (timeout c)) as [res|]; [|reflexivity].
      destruct (res_ok res); simpl;
        [now destruct (res_arrayBuffer res)|now destruct (res_text res)].
    + now destruct o.
  - unfold checkHealth. destruct has_fetch; simpl; intros o.
    + destruct (fetchWithTimeout o HEALTH_TIMEOUT_MS) as [res|]; [|reflexivity].
      destruct (res_ok res); simpl; [now destruct (res_json res)|reflexivity].
    + now destruct o.
Qed.




End Operations.

Lemma createForm_single_part_witness :
  createForm (H := node20) (InBuffer [0x52; 0x49; 0x46; 0x46]) (js "audio")
  = Err notBlob
  /\ exists built,
       createForm (H := node16) (InPath (js "/tmp/song.mp3")) (js "audio") = Ok built.
Proof.
  split.
  - exact (proj2 (proj2 (proj2
             (createForm_single_part (H := node20)
                (InBuffer [0x52; 0x49; 0x46; 0x46]) (js "audio"))))
             eq_refl eq_refl eq_refl).
  - exact (proj2 (proj1
             (createForm_single_part (H := node16)
                (InPath (js "/tmp/song.mp3")) (js "audio")))
             eq_refl).
Defined.

Section Outcomes.
Context `{Host}.

Lemma getStemDownloadUrl_slash (c : StemSeparatorClient)
    (jobId filename url : jsstring) :
  getStemDownloadUrl c jobId filename = Ok url ->
  (baseUrl c ++ [SLASH]) `prefix_of` url.
Proof.
  unfold getStemDownloadUrl.
  destruct (assertValidJobId jobId) as [[]|]; [|discriminate].
  destruct (sanitizeFilename filename) as [safeName|]; [|discriminate]. simpl.
  destruct (encodeURIComponent jobId) as [ej|]; [|discriminate].
  destruct (encodeURIComponent safeName) as [ef|]; [|discriminate].
  intros [= <-].
  exists (js "api/v1/separate" ++ js "/" ++ ej ++ js "/download/" ++ ef).
  now rewrite <- app_assoc.
Qed.

(** X16. For a client the constructor built, the base URL does not end with
    a slash, and every request of every operation goes to a URL that
    starts with the base URL followed by a slash: base URL and endpoint
    path meet in exactly one slash. *)
Theorem constructed_client_urls
    (options : StemSeparatorClientOptions) (c : StemSeparatorClient) :
  newStemSeparatorClient options = Ok c ->
  last (baseUrl c) <> Some SLASH
  /\ (forall file opts,
        everyRequestUrl (fun url => (baseUrl c ++ [SLASH]) `prefix_of` url)
          (separate c file opts))
  /\ (forall jobId filename,
        everyRequestUrl (fun url => (baseUrl c ++ [SLASH]) `prefix_of` url)
          (downloadStem c jobId filename))
  /\ everyRequestUrl (fun url => (baseUrl c ++ [SLASH]) `prefix_of` url)
       (checkHealth c).
Proof.
  intros Hnew. split; [|split; [|split]].
  - revert Hnew. unfold newStemSeparatorClient, normalizeBaseUrl, replaceTrailingSlashes.
    destruct (isEmpty (trim _)); [discriminate|]. simpl.
    destruct (PrimFloat.ltb _ _); [discriminate|].
    intros [= <-]. simpl. intros Hlast.
    apply dropWhileEnd_last in Hlast. discriminate.
  - intros file opts. unfold separate.
    destruct (assertValidFileInput file); [|exact I].
    destruct (separateFilename opts) as [filename|]; [|exact I].
    destruct (createForm file filename) as [[form formHeaders]|]; [|exact I].
    assert (Hurl : (baseUrl c ++ [SLASH]) `prefix_of`
                     (baseUrl c ++ API_PATH_SEPARATE ++ buildSeparateQueryString opts)).
    { exists (js "api/v1/separate" ++ buildSeparateQueryString opts).
      now rewrite <- app_assoc. }
    destruct has_fetch; simpl; (split; [exact Hurl|]).
    + intros o. destruct (fetchWithTimeout o (timeout c)) as [res|]; [|exact I].
      destruct (res_json res) as [body|]; [|destruct (res_text res); exact I].
      destruct (res_ok res); simpl; [|now destruct (detailOr body _)].
      destruct (parseSeparateResponse body); exact I.
    + intros [data|err]; [|exact I].
      destruct (parseSeparateResponse data); exact I.
  - intros jobId filename. unfold downloadStem.
    destruct (assertValidJobId jobId); [|exact I].
    destruct (sanitizeFilename filename); [|exact I].
    destruct (getStemDownloadUrl c jobId filename) as [url|] eqn:Hurl; [|exact I].
    apply getStemDownloadUrl_slash in Hurl.
    destruct has_fetch; simpl; (split; [exact Hurl|]).
    + intros o. destruct (fetchWithTimeout o (timeout c)) as [res|]; [|exact I].
      destruct (res_ok res); simpl; [destruct (res_arrayBuffer res); exact I|].
      destruct (res_text res); exact I.
    + intros [data|err]; exact I.
  - unfold checkHealth.
    assert (Hurl : (baseUrl c ++ [SLASH]) `prefix_of` (baseUrl c ++ API_PATH_HEALTH)).
    { exists (js "health"). now rewrite <- app_assoc. }
    destruct has_fetch; simpl; (split; [exact Hurl|]).
    + intros o. destruct (fetchWithTimeout o HEALTH_TIMEOUT_MS) as [res|]; [|exact I].
      destruct (res_ok res); simpl; [destruct (res_json res); exact I|exact I].
    + intros [data|err]; exact I.
Qed.

(** What [separate] does once validation has passed and the form is
    built. *)
Lemma separate_past_validation (c : StemSeparatorClient) (file : SeparateInput)
    (options : SeparateOptions) :
  is_Some (firstRequest (separate c file options)) ->
  exists req,
    separate c file options
    = if negb has_fetch then
        AxiosJson req (fun o =>
          let onTimeout :=
            js "Request timed out after " ++ NumberToString (timeout c) ++ js "ms" in
          match o with
          | AxiosResolved data =>
              match parseSeparateResponse data with
              | Ok r => Return r
              | Err err => Throw (throwAxiosError err onTimeout (js "Request failed"))
              end
          | AxiosRejected err =>
              Throw (throwAxiosError err onTimeout (js "Request failed"))
          end)
      else
        Fetch req (fun o =>
          match fetchWithTimeout o (timeout c) with
          | Err e => Throw e
          | Ok res =>
              let status := NumberToString (res_status res) in
              match res_json res with
              | Err _ =>
                  match res_text res with
                  | Err e => Throw e
                  | Ok text =>
                      Throw (StemSeparatorError
                               (js "API error: " ++ status ++ js " " ++ res_statusText res
                                  ++ js " - " ++ text)
                               API_ERROR (Some (res_status res)) None)
                  end
              | Ok body =>
                  if negb (res_ok res) then
                    match detailOr body
                            (js "API error: " ++ status ++ js " " ++ res_statusText res) with
                    | Some message =>
                        Throw (StemSeparatorError message API_ERROR
                                 (Some (res_status res)) None)
                    | None => Throw notPrimitive
                    end
                  else ofResult (parseSeparateResponse body)
              end
          end).
Proof.
  unfold separate.
  destruct (assertValidFileInput file); [|intros [? [=]]].
  destruct (separateFilename options) as [filename|]; [|intros [? [=]]].
  destruct (createForm file filename) as [[form formHeaders]|]; [|intros [? [=]]].
  intros _. now eexists.
Qed.


(** X18. With [fetch], once a response has been received: [separate]
    returns a result exactly when the response is [ok], its body is JSON and
    the parser accepts it, and then returns the parser's result; an error of
    the parser leaves unchanged; a response that is not [ok] never reaches
    the parser: it rejects with API_ERROR, the response's status and the
    message [String(detail)], or the generic message when the body has no
    [detail], and with the [TypeError] of [String(detail)] when the
    [detail] cannot be converted. *)
Theorem separate_fetch_outcome
    (c : StemSeparatorClient) (file : SeparateInput) (options : SeparateOptions)
    (o : FetchOutcome) (p : io SeparateResponse) :
  has_fetch = true ->
  afterFetch (separate c file options) o = Some p ->
  (forall r, p = Return r <->
             exists res body, o = FetchResolved res /\ res_json res = Ok body
               /\ res_ok res = true /\ parseSeparateResponse body = Ok r)
  /\ (forall res body e, o = FetchResolved res -> res_json res = Ok body ->
        res_ok res = true -> parseSeparateResponse body = Err e -> p = Throw e)
  /\ (forall res body, o = FetchResolved res -> res_json res = Ok body ->
        res_ok res = false ->
        p = match detailOf body with
            | Some d =>
                match ToString d with
                | Some m =>
                    Throw (StemSeparatorError m API_ERROR (Some (res_status res)) None)
                | None => Throw notPrimitive
                end
            | None =>
                Throw (StemSeparatorError
                         (js "API error: " ++ NumberToString (res_status res)
                            ++ js " " ++ res_statusText res)
                         API_ERROR (Some (res_status res)) None)
            end).
Proof.
  intros Hfetch Hafter.
  destruct (separate_past_validation c file options) as (req & Hsep).
  { destruct (separate c file options); try discriminate; now eexists. }
  rewrite Hsep, Hfetch in Hafter. simpl in Hafter. injection Hafter as <-.
  split; [|split].
  - intros r. split.
    + pose proof (fetchWithTimeout_outcome o (timeout c)) as Ho.
      destruct (fetchWithTimeout o (timeout c)) as [res|e]; [|discriminate].
      destruct (res_json res) as [body|ejson] eqn:Hjson;
        [|destruct (res_text res); discriminate].
      destruct (res_ok res) eqn:Hok; simpl; [|destruct (detailOr body _); discriminate].
      destruct (parseSeparateResponse body) as [r'|] eqn:Hparse; [|discriminate].
      intros [= <-]. exists res, body. auto.
    + intros (res & body & -> & Hjson & Hok & Hparse). simpl.
      now rewrite Hjson, Hok, Hparse.
  - intros res body e -> Hjson Hok Hparse. simpl.
    now rewrite Hjson, Hok, Hparse.
  - intros res body -> Hjson Hok. simpl. rewrite Hjson, Hok. simpl.
    unfold detailOr, detailOf.
    destruct (isObject body && hasProp (js "detail") body); [|reflexivity].
    now destruct (ToString (getProp (js "detail") body)).
Qed.

(** X19. With [fetch], when no response is received, each operation rejects
    with TIMEOUT if the request was aborted by the timer and with
    NETWORK_ERROR otherwise. *)
Theorem fetch_rejection_codes (c : StemSeparatorClient) (o : FetchOutcome) :
  fetchRejected o = true ->
  (forall file options p,
      afterFetch (separate c file options) o = Some p ->
      rejectsWith (if aborted o then TIMEOUT else NETWORK_ERROR) p)
  /\ (forall jobId filename p,
        afterFetch (downloadStem c jobId filename) o = Some p ->
        rejectsWith (if aborted o then TIMEOUT else NETWORK_ERROR) p)
  /\ (forall p,
        afterFetch (checkHealth c) o = Some p ->
        rejectsWith (if aborted o then TIMEOUT else NETWORK_ERROR) p).
Proof.
  intros Hrej.
  assert (Hleaf : forall t A (k : Response -> io A),
            rejectsWith (if aborted o then TIMEOUT else NETWORK_ERROR)
              (match fetchWithTimeout o t with
               | Err e => Throw e
               | Ok res => k res
               end)).
  { intros t A k. pose proof (fetchWithTimeout_outcome o t) as Ho.
    destruct (fetchWithTimeout o t) as [res|e].
    - subst o. discriminate.
    - apply Ho. }
  split; [|split].
  - intros file options p. unfold separate.
    destruct (assertValidFileInput file); [|discriminate].
    destruct (separateFilename options) as [filename|]; [|discriminate].
    destruct (createForm file filename) as [[form formHeaders]|]; [|discriminate].
    destruct has_fetch; simpl; [|discriminate].
    intros [= <-]. apply Hleaf.
  - intros jobId filename p. unfold downloadStem.
    destruct (assertValidJobId jobId); [|discriminate].
    destruct (sanitizeFilename filename); [|discriminate].
    destruct (getStemDownloadUrl c jobId filename); [|discriminate].
    destruct has_fetch; simpl; [|discriminate].
    intros [= <-]. apply Hleaf.
  - intros p. unfold checkHealth.
    destruct has_fetch; simpl; [|discriminate].
    intros [= <-]. apply Hleaf.
Qed.

End Outcomes.


Lemma separate_fetch_outcome_witness :
  afterFetch
    (separate (H := node20) exampleClient (InBlob [0x52; 0x49; 0x46; 0x46]) noOptions)
    (FetchResolved {| res_ok := false; res_status := 503%float;
                      res_statusText := js "Service Unavailable";
                      res_json := Ok (obj [(js "detail", VStr (js "model is loading"))]);
                      res_text := Ok []; res_arrayBuffer := Ok [] |})
  = Some (Throw (StemSeparatorError (js "model is loading") API_ERROR
                   (Some 503%float) None)).
Proof.
  destruct (separate_fetch_outcome (H := node20) exampleClient
              (InBlob [0x52; 0x49; 0x46; 0x46]) noOptions
              (FetchResolved {| res_ok := false; res_status := 503%float;
                                res_statusText := js "Service Unavailable";
                                res_json := Ok (obj [(js "detail",
                                                      VStr (js "model is loading"))]);
                                res_text := Ok []; res_arrayBuffer := Ok [] |})
              _ eq_refl eq_refl) as (_ & _ & Hstatus).
  exact (f_equal Some (Hstatus _ (obj [(js "detail", VStr (js "model is loading"))])
                         eq_refl eq_refl eq_refl)).
Defined.

Lemma fetch_rejection_codes_witness :
  exists p,
    afterFetch (checkHealth (H := node18) exampleClient)
      (FetchRejectedError (js "AbortError") (js "The operation was aborted"))
    = Some p
    /\ rejectsWith TIMEOUT p.
Proof.
  eexists. split; [reflexivity|].
  exact (proj2 (proj2
           (fetch_rejection_codes (H := node18) exampleClient
              (FetchRejectedError (js "AbortError") (js "The operation was aborted"))
              eq_refl)) _ eq_refl).
Defined.

Lemma constructed_client_urls_witness :
  last (baseUrl exampleClient) <> Some SLASH
  /\ everyRequestUrl (fun url => (baseUrl exampleClient ++ [SLASH]) `prefix_of` url)
       (checkHealth (H := node18) exampleClient).
Proof.
  destruct (constructed_client_urls (H := node18)
              {| o_baseUrl := Some (js " https://api.example.com/// ");
                 o_apiKey := None; o_timeout := None |}
              exampleClient eq_refl) as (Hlast & _ & _ & Hhealth).
  split; [exact Hlast|exact Hhealth].
Defined.

Section Validation.
Context `{Host}.

Lemma assertValidFileInput_rejects (file : SeparateInput) (e : thrown) :
  assertValidFileInput file = Err e -> missingOrBlankFile file.
Proof.
  unfold missingOrBlankFile. destruct file; simpl; try discriminate; auto.
  destruct (isEmpty (trim path)) eqn:Hp; [|discriminate].
  intros _. right; right. exists path. split; [reflexivity|now apply isEmpty_true].
Qed.

(** X20. [separate] settles without a transport request exactly when the
    file is missing or a blank path, or the [filename] option is not blank
    and [sanitizeFilename] refuses its trimmed form, or the host cannot
    attach the file under the resolved filename.  In the first two cases it
    rejects with INVALID_ARGUMENT; in the third it throws what [createForm]
    throws, which is no [StemSeparatorError]: with a global [FormData], the
    [TypeError] of [append] for a file that is neither [File] nor [Blob],
    and a [ReferenceError] where [File] is not defined.  Nothing else stops
    the request: not an unrecognized [stems] or [format], not a blank
    bitrate. *)
Theorem separate_validation_iff
    (c : StemSeparatorClient) (file : SeparateInput) (options : SeparateOptions) :
  (noTransportCall (separate c file options) <->
     missingOrBlankFile file
     \/ refusedFilenameOption options
     \/ exists name, separateFilename options = Ok name
          /\ attachable file name = false)
  /\ (missingOrBlankFile file \/ refusedFilenameOption options ->
      rejectsWith INVALID_ARGUMENT (separate c file options))
  /\ (forall name, ~ missingOrBlankFile file -> separateFilename options = Ok name ->
      attachable file name = false ->
      exists e, separate c file options = Throw e /\ errorCode e = None
        /\ (has_FormData = true ->
            e = if has_File then notBlob else fileNotDefined)).
Proof.
  destruct (assertValidFileInput file) as [[]|e0] eqn:Hfile.
  2: { pose proof (assertValidFileInput_rejects _ _ Hfile) as Hmissing.
       destruct (assertValidFileInput_missing _ Hmissing) as (e1 & He1 & Hcode).
       assert (Hsep : separate c file options = Throw e0)
         by (unfold separate; now rewrite Hfile).
       rewrite Hsep. split; [|split].
       - split; [now left|reflexivity].
       - intros _. simpl. congruence.
       - intros name Hvalid. contradiction. }
  assert (Hvalid : ~ missingOrBlankFile file).
  { intros Hmissing. destruct (assertValidFileInput_missing _ Hmissing) as (e1 & He1 & _).
    congruence. }
  destruct (separateFilename options) as [filename|e] eqn:Hname.
  - assert (Hno : ~ refusedFilenameOption options).
    { intros (f & e & Hf & Hne & He).
      rewrite (separateFilename_given options f Hf Hne) in Hname. congruence. }
    destruct (attachable file filename) eqn:Hattach.
    + pose proof (separate_multipartFilename c file options _ Hfile Hname Hattach)
        as Hpart.
      assert (Hreq : ~ noTransportCall (separate c file options)).
      { unfold noTransportCall. unfold multipartFilename in Hpart.
        intros Hnone. rewrite Hnone in Hpart. discriminate Hpart. }
      split; [|split].
      * split; [intros Hnone; contradiction|].
        intros [Hm|[Hr|(name & [= <-] & Hn)]]; [contradiction|contradiction|congruence].
      * intros [Hm|Hr]; contradiction.
      * intros name _ [= <-] Hn. congruence.
    + destruct (separate_not_attachable c file options _ Hfile Hname Hattach)
        as (e & Hsep & Hcode & Hnative).
      split; [|split].
      * rewrite Hsep. split; [|reflexivity].
        intros _. right; right. now exists filename.
      * intros [Hm|Hr]; contradiction.
      * intros name _ [= <-] _. now exists e.
  - assert (Hsep : separate c file options = Throw e)
      by (unfold separate; now rewrite Hfile, Hname).
    unfold separateFilename in Hname.
    destruct (opt_filename options) as [f|] eqn:Hf; [|discriminate].
    destruct (isEmpty (trim f)) eqn:Hblank; simpl in Hname; [discriminate|].
    rewrite Hsep. split; [|split].
    + split; [|reflexivity].
      intros _. right; left. exists f, e. split; [exact Hf|].
      split; [now apply isEmpty_false|exact Hname].
    + intros _. exact (sanitizeFilename_error _ _ Hname).
    + intros name _ [=].
Qed.

(** X21. With [fetch], a response that is not [ok] never gives a returned
    value: each operation then throws.  [checkHealth] throws an API_ERROR
    carrying the response's status.  [downloadStem] reads the text of the
    response: it throws such an API_ERROR, or what [res.text()] rejected
    with.  [separate] reads the body as JSON: with a JSON body it throws
    such an API_ERROR whose message is [String(detail)] when the body has
    a [detail], or the [TypeError] of that conversion; when [res.json()]
    rejects it reads the text and throws such an API_ERROR, or what
    [res.text()] rejected with. *)
Theorem fetch_not_ok_rejects (c : StemSeparatorClient) (res : Response) :
  res_ok res = false ->
  (forall file options p,
      afterFetch (separate c file options) (FetchResolved res) = Some p ->
      exists e, p = Throw e
        /\ match res_json res with
           | Ok body =>
               match detailOf body with
               | Some d =>
                   match ToString d with
                   | Some m => apiErrorOf res e /\ errorMessage e = Some m
                   | None => e = notPrimitive
                   end
               | None => apiErrorOf res e
               end
           | Err _ =>
               match res_text res with
               | Ok _ => apiErrorOf res e
               | Err etext => e = etext
               end
           end)
  /\ (forall jobId filename p,
        afterFetch (downloadStem c jobId filename) (FetchResolved res) = Some p ->
        exists e, p = Throw e
          /\ match res_text res with
             | Ok _ => apiErrorOf res e
             | Err etext => e = etext
             end)
  /\ (forall p, afterFetch (checkHealth c) (FetchResolved res) = Some p ->
                exists e, p = Throw e /\ apiErrorOf res e).
Proof.
  intros Hok. unfold apiErrorOf. split; [|split].
  - intros file options p. unfold separate.
    destruct (assertValidFileInput file); [|discriminate].
    destruct (separateFilename options) as [filename|]; [|discriminate].
    destruct (createForm file filename) as [[form formHeaders]|]; [|discriminate].
    destruct has_fetch; simpl; [|discriminate].
    intros [= <-]. rewrite Hok. simpl.
    destruct (res_json res) as [body|ejson] eqn:Hjson.
    + unfold detailOr, detailOf.
      destruct (isObject body && hasProp (js "detail") body).
      * destruct (ToString (getProp (js "detail") body)) as [m|];
          eexists; split; try reflexivity; repeat split.
      * eexists. split; [reflexivity|]. now split.
    + destruct (res_text res) as [text|etext] eqn:Htext.
      * eexists. split; [reflexivity|]. now split.
      * exists etext. split; reflexivity.
  - intros jobId filename p. unfold downloadStem.
    destruct (assertValidJobId jobId); [|discriminate].
    destruct (sanitizeFilename filename); [|discriminate].
    destruct (getStemDownloadUrl c jobId filename); [|discriminate].
    destruct has_fetch; simpl; [|discriminate].
    intros [= <-]. rewrite Hok. simpl.
    destruct (res_text res) as [text|etext] eqn:Htext.
    + eexists. split; [reflexivity|]. now split.
    + exists etext. split; reflexivity.
  - intros p. unfold checkHealth.
    destruct has_fetch; simpl; [|discriminate].
    intros [= <-]. rewrite Hok. simpl.
    eexists. split; [reflexivity|]. now split.
Qed.

End Validation.

Lemma separate_validation_iff_witness :
  separate (H := node20) exampleClient (InBuffer [0x52; 0x49; 0x46; 0x46]) noOptions
  = Throw notBlob.
Proof.
  destruct (proj2 (proj2
              (separate_validation_iff (H := node20) exampleClient
                 (InBuffer [0x52; 0x49; 0x46; 0x46]) noOptions))
              (js "audio")) as (e & Hsep & _ & Hnative).
  - intros [Hnull|[Hundefined|(p & Hpath & _)]]; discriminate.
  - reflexivity.
  - reflexivity.
  - rewrite Hsep, (Hnative eq_refl). reflexivity.
Defined.

Lemma fetch_not_ok_rejects_witness :
  exists e,
    afterFetch
      (downloadStem (H := node18) exampleClient (js "job-1") (js "vocals.wav"))
      (FetchResolved {| res_ok := false; res_status := 404%float;
                        res_statusText := js "Not Found";
                        res_json := Ok VNull; res_text := Ok (js "missing");
                        res_arrayBuffer := Ok [] |})
    = Some (Throw e)
    /\ errorCode e = Some API_ERROR
    /\ errorStatus e = Some 404%float.
Proof.
  destruct (fetch_not_ok_rejects (H := node18) exampleClient
              {| res_ok := false; res_status := 404%float;
                 res_statusText := js "Not Found";
                 res_json := Ok VNull; res_text := Ok (js "missing");
                 res_arrayBuffer := Ok [] |} eq_refl) as (_ & Hdownload & _).
  destruct (Hdownload (js "job-1") (js "vocals.wav") _ eq_refl) as (e & He & Hcode & Hstatus).
  exists e. split; [exact (f_equal Some He)|]. split; [exact Hcode|exact Hstatus].
Defined.
